(** * The CCOBRA benchmark evaluator ([ccobra_bench/evaluator.py])

    A shallow embedding of [dir_context] and of the class [Evaluator]
    ([__init__], [extract_optionals], [extract_demographics], [evaluate]),
    followed by the properties of the response decoding, of the subject
    identifier remapping, of the evaluation order and of the loading
    context.

    Python values are dynamically typed: a cell of a data frame, a decoded
    response and a prediction are all values of [pyval].  Exceptions are
    results of the type [result]; the process state that the evaluator
    touches (working directory, [sys.path], the module registry) is threaded
    through the monad [M], which also records the calls that leave the
    evaluator (model hooks, comparator, importer) in a log.

    What is not code of the evaluator is a parameter: the hooks of a model,
    the comparator and the formatting of a prediction are functions that
    return or raise, and the operating system decides whether [os.chdir]
    enters a directory.  [dir_context_os] and [evaluate_os] are the code
    for an arbitrary operating system; [dir_context] and [evaluate] are the
    code for one that refuses no directory. *)

From Stdlib Require Import ZArith Ascii String Sorting.Sorted.
From stdpp Require Import gmap strings sorting countable list.

#[local] Set Warnings "-register-all,-clear-no-such-hyp".
#[local] Open Scope string_scope.
#[local] Open Scope list_scope.

(** ** Python values *)

(** The values that occur in the cells of a table read by [pd.read_csv]
    (integers and strings) and the nested lists built from them by the
    response decoding. *)
Inductive pyval : Type :=
  | PInt (z : Z)
  | PStr (s : string)
  | PList (l : list pyval).

Fixpoint pyval_enc (v : pyval) : gen_tree (Z + string) :=
  match v with
  | PInt z => GenLeaf (inl z)
  | PStr s => GenLeaf (inr s)
  | PList l => GenNode 0 (map pyval_enc l)
  end.

Fixpoint pyval_dec (t : gen_tree (Z + string)) : pyval :=
  match t with
  | GenLeaf (inl z) => PInt z
  | GenLeaf (inr s) => PStr s
  | GenNode _ ts => PList (map pyval_dec ts)
  end.

Lemma pyval_dec_enc v : pyval_dec (pyval_enc v) = v.
Proof.
  revert v. fix IH 1. intros [z|s|l]; simpl; try reflexivity.
  f_equal. induction l as [|x l IHl]; simpl; [reflexivity|].
  rewrite IH, IHl. reflexivity.
Defined.

(** Python's [==] on these values. *)
#[global] Instance pyval_eq_dec : EqDecision pyval.
Proof.
  intros a b. destruct (decide (pyval_enc a = pyval_enc b)) as [H|H].
  - left. rewrite <- (pyval_dec_enc a), <- (pyval_dec_enc b), H. reflexivity.
  - right. intros ->. apply H. reflexivity.
Defined.

(** Values are hashable, so they can be members of a [set] and keys of a
    [dict]. *)
#[global] Instance pyval_countable : Countable pyval :=
  inj_countable' pyval_enc pyval_dec pyval_dec_enc.

(** [isinstance(v, str)] *)
Definition isinstance_str (v : pyval) : bool :=
  match v with PStr _ => true | _ => false end.

(** The order in which pandas sorts the values of a column: integers by
    value, strings lexicographically by code point, integers before strings
    in a column of mixed type.  Lists never occur in a sorted column; they
    are put last, all equivalent. *)
Definition pyval_leb (a b : pyval) : bool :=
  match a, b with
  | PInt x, PInt y => (x <=? y)%Z
  | PInt _, _ => true
  | PStr _, PInt _ => false
  | PStr s, PStr t => String.leb s t
  | PStr _, PList _ => true
  | PList _, PList _ => true
  | PList _, _ => false
  end.

Definition pyval_le (a b : pyval) : Prop := pyval_leb a b = true.

(** A stable sort: equal elements keep their order.  (pandas sorts with
    numpy's unstable quicksort by default, which numpy runs as an insertion
    sort on short inputs; nothing below depends on the order of ties.) *)
Fixpoint insert_by {A} (leb : A -> A -> bool) (x : A) (l : list A) : list A :=
  match l with
  | [] => [x]
  | y :: l' => if leb x y then x :: y :: l' else y :: insert_by leb x l'
  end.

Definition sort_by {A} (leb : A -> A -> bool) (l : list A) : list A :=
  foldr (insert_by leb) [] l.

(** ** Exceptions *)

(** The text of a [ValueError], kept structured. *)
Inductive message : Type :=
  | NotApplicableDomains (name : string) (missing : gset pyval)
      (* 'Model {} is not applicable to domains {}.' *)
  | NotApplicableResponseTypes (name : string) (missing : gset pyval)
      (* 'Model {} is not applicable to response_types {}.' *)
  | NotInList (x : string).
      (* 'list.remove(x): x not in list' *)

Inductive exn : Type :=
  | KeyError (key : string)
  | AttributeError (type attr : string)
      (* "'<type>' object has no attribute '<attr>'" *)
  | ValueError (msg : message)
  | TypeError (type : string)
      (* "'<type>' object is not iterable" *)
  | SchemaError (field : string)
  | ModelDiscoveryError (model : string)
  | OSError (path : string)
      (* the operating system refuses the directory: FileNotFoundError,
         NotADirectoryError or PermissionError *)
  | RuntimeError (text : string).
      (* an exception of the code of a model or of the comparator *)

Inductive result (A : Type) : Type :=
  | Ok (a : A)
  | Raise (e : exn).
Arguments Ok {A} a.
Arguments Raise {A} e.

#[global] Instance result_ret : MRet result := @Ok.
#[global] Instance result_bind : MBind result := fun A B f r =>
  match r with
  | Ok a => f a
  | Raise e => Raise e
  end.
#[global] Instance result_fmap : FMap result := fun A B f r =>
  match r with
  | Ok a => Ok (f a)
  | Raise e => Raise e
  end.

(** A list comprehension [[f(x) for x in l]] whose body may raise. *)
Fixpoint comprehension {A B} (f : A -> result B) (l : list A) : result (list B) :=
  match l with
  | [] => Ok []
  | x :: l' => y ← f x; ys ← comprehension f l'; Ok (y :: ys)
  end.

(** ** Strings *)

(** [s.split(sep)] for a separator of one character: the pieces of [s]
    between the occurrences of [sep], empty pieces included. *)
Fixpoint str_split (sep : ascii) (s : string) : list string :=
  match s with
  | EmptyString => [EmptyString]
  | String c s' =>
    if Ascii.eqb c sep then EmptyString :: str_split sep s'
    else match str_split sep s' with
         | [] => [String c EmptyString]
         | piece :: pieces => String c piece :: pieces
         end
  end.

(** [sep.join(l)], the inverse formatting. *)
Fixpoint str_join (sep : ascii) (l : list string) : string :=
  match l with
  | [] => EmptyString
  | [piece] => piece
  | piece :: l' => piece +:+ String sep (str_join sep l')
  end.

Fixpoint occurs (c : ascii) (s : string) : bool :=
  match s with
  | EmptyString => false
  | String c' s' => Ascii.eqb c' c || occurs c s'
  end.

(** The name Python prints for the type of a value. *)
Definition type_name (v : pyval) : string :=
  match v with
  | PInt _ => "int"
  | PStr _ => "str"
  | PList _ => "list"
  end.

(** The method call [v.split(sep)]: only strings have the method. *)
Definition py_split (sep : ascii) (v : pyval) : result pyval :=
  match v with
  | PStr s => Ok (PList (PStr <$> str_split sep s))
  | _ => Raise (AttributeError (type_name v) "split")
  end.

(** [[x.split(sep) for x in v]]: iteration over a list value. *)
Definition split_each (sep : ascii) (v : pyval) : result pyval :=
  match v with
  | PList l => PList <$> comprehension (py_split sep) l
  | PStr s =>
      (* iterating a string yields its characters, each a string *)
      PList <$> comprehension (py_split sep)
        ((fun c => PStr (String c EmptyString)) <$> list_ascii_of_string s)
  | PInt _ => Raise (TypeError "int")
  end.

(** The decoding of a stored response, lines 163-167 (and 131-135 with the
    training record's entries):
<<
    if isinstance(truth, str):
        if response_type == 'multiple-choice':
            truth = [y.split(';') for y in [x.split('/') for x in truth.split('|')]]
        else:
            truth = [x.split(';') for x in truth.split('/')]
>> *)
Definition decode (response_type truth : pyval) : result pyval :=
  if isinstance_str truth then
    if bool_decide (response_type = PStr "multiple-choice") then
      segments ← py_split "|" truth;
      parts ← split_each "/" segments;
      split_each ";" parts
    else
      parts ← py_split "/" truth;
      split_each ";" parts
  else Ok truth.


(** ** Data frames *)

(** A row of a data frame, as [iterrows] yields it: the index label and the
    series of the row's cells, keyed by column name. *)
Record Row : Type := mkRow {
  label : Z;
  cells : gmap string pyval
}.

Definition DataFrame : Type := list Row.

(** [pd.read_csv]: the records of the file in file order, labelled by the
    default [RangeIndex] 0, 1, 2, ...  A record holds the cells of one line
    by column name.  The files are taken to have a value in every cell: an
    empty cell, which pandas reads as NaN while turning the column into
    floats, has no counterpart among the values of [pyval]. *)
Definition read_csv (records : list (gmap string pyval)) : DataFrame :=
  imap (fun i c => mkRow (Z.of_nat i) c) records.

(** [row[key]] *)
Definition row_get (key : string) (row : Row) : result pyval :=
  match cells row !! key with
  | Some v => Ok v
  | None => Raise (KeyError key)
  end.

(** [df[key]]: the column, in row order. *)
Definition column (key : string) (df : DataFrame) : result (list pyval) :=
  comprehension (row_get key) df.

(** [key in df.columns].  A frame is given by its rows and has no header of
    its own: a column is one that every row has a cell for, so that a frame
    without rows counts as having every column. *)
Definition has_column (key : string) (df : DataFrame) : bool :=
  match column key df with
  | Ok _ => true
  | Raise _ => false
  end.

(** [Series.unique()]: the distinct values in order of first occurrence. *)
Fixpoint unique (l : list pyval) : list pyval :=
  match l with
  | [] => []
  | x :: l' => x :: filter (fun y => y <> x) (unique l')
  end.

(** [range(a, b)] *)
Definition py_range (a b : Z) : list pyval := PInt <$> seqZ a (b - a).

(** [dict(pairs)]: a later pair overrides an earlier one with the same key. *)
Definition dict_of (pairs : list (pyval * pyval)) : gmap pyval pyval :=
  foldl (fun d kv => <[kv.1 := kv.2]> d) ∅ pairs.

(** [df[key].replace(d, inplace=True)]: every cell of the column that is a
    key of [d] is replaced by its image; all masks are taken on the column
    as it was, so the replacement is simultaneous. *)
Definition replace (key : string) (d : gmap pyval pyval) (df : DataFrame) : DataFrame :=
  (fun row => mkRow (label row) (alter (fun v => default v (d !! v)) key (cells row))) <$> df.

(** The key of a row for [sort_values] and [groupby]. *)
Definition key_of (key : string) (row : Row) : pyval :=
  default (PInt 0) (cells row !! key).

Definition row_leb (key : string) (r1 r2 : Row) : bool :=
  pyval_leb (key_of key r1) (key_of key r2).

Definition row_le (key : string) (r1 r2 : Row) : Prop :=
  pyval_le (key_of key r1) (key_of key r2).

(** [df.sort_values(key)]: the rows in ascending order of the column, each
    with its label. *)
Definition sort_values (key : string) (df : DataFrame) : result DataFrame :=
  _ ← column key df;
  Ok (sort_by (row_leb key) df).

(** [df.groupby(key)], iterated: one pair (group key, sub-frame) per distinct
    value of the column, the group keys sorted ([sort=True] is the default of
    [groupby]), the rows of a group in the order of the frame.  ([groupby]
    leaves out the rows whose key is NaN; see [read_csv].) *)
Definition groupby (key : string) (df : DataFrame) : result (list (pyval * DataFrame)) :=
  col ← column key df;
  Ok ((fun k => (k, filter (fun row => cells row !! key = Some k) df))
        <$> sort_by pyval_leb (unique col)).

(** Modelled from the spec: [ccobra.data.CCobraData.required_fields], the
    required columns of a dataset (spec section 3). *)
Definition required_fields : list string :=
  ["id"; "domain"; "response_type"; "task"; "choices"; "response"; "sequence"].

(** Modelled from the spec: the constructor [ccobra.data.CCobraData], which
    wraps a data frame and fails with a [SchemaError] when a required column
    is missing (spec section 4.2); [get()] is the wrapped frame. *)
Definition CCobraData (df : DataFrame) : result DataFrame :=
  match list_find (fun field => has_column field df = false) required_fields with
  | Some (_, field) => Raise (SchemaError field)
  | None => Ok df
  end.

(** Modelled from the spec: [ccobra.data.Item], the stimulus handed to a
    model (spec section 3). *)
Record Item : Type := mkItem {
  identifier : pyval;
  item_domain : pyval;
  item_task : pyval;
  item_response_type : pyval;
  item_choices : pyval
}.

(** ** Models *)

(** An entry of a training record: a cell value or the constructed item. *)
Inductive tval : Type :=
  | TVal (v : pyval)
  | TItem (i : Item).

(** The model capability contract, consumed by the evaluator: the class
    attributes and the lifecycle hooks of a [ccobra.CCobraModel].  An
    instance is a value of [mstate]; a hook that mutates the instance returns
    the new state, so [copy.deepcopy] of an instance is the instance.  The
    hooks are code of the model: any of them may raise instead of
    returning. *)
Record CCobraModel : Type := mkModel {
  mstate : Type;
  minit : mstate;
  name : string;
  supported_domains : list pyval;
  supported_response_types : list pyval;
  pre_train : list (list (gmap string tval)) -> mstate -> result mstate;
  start_participant : pyval -> gmap string pyval -> mstate -> result mstate;
  predict : Item -> gmap string pyval -> mstate -> result (pyval * mstate);
  adapt : Item -> pyval -> gmap string pyval -> mstate -> result mstate
}.

(** ** The process state and the monad of the evaluator *)

(** The calls by which the evaluator acts on its collaborators, in the
    order of execution; [idx] is the index of the model in the model list. *)
Inductive event : Type :=
  | EvPrint (model : string) (i n : nat)
  | EvImport (idx : nat) (model : string)
  | EvPreTrain (idx : nat)
  | EvStartParticipant (idx : nat) (subj_id : pyval)
  | EvPredict (idx : nat) (subj_id sequence : pyval)
  | EvCompare (idx : nat) (subj_id sequence : pyval)
  | EvAdapt (idx : nat) (subj_id sequence : pyval)
  | EvUnimport (idx : nat) (model : string).

Record World : Type := mkWorld {
  cwd : string;                 (* os.getcwd() *)
  sys_path : list string;       (* sys.path *)
  sys_modules : gset string;    (* the process-wide module registry *)
  log : list event
}.

(** A computation may change the world and then return or raise; the
    changes made before an exception stay. *)
Definition M (A : Type) : Type := World -> result A * World.

#[global] Instance M_ret : MRet M := fun A a w => (Ok a, w).
#[global] Instance M_bind : MBind M := fun A B f m w =>
  match m w with
  | (Ok a, w') => f a w'
  | (Raise e, w') => (Raise e, w')
  end.

Definition lift {A} (r : result A) : M A := fun w => (r, w).
Definition raise {A} (e : exn) : M A := fun w => (Raise e, w).
Definition emit (ev : event) : M unit :=
  fun w => (Ok tt, mkWorld (cwd w) (sys_path w) (sys_modules w) (log w ++ [ev])).

(** [try: body finally: final] *)
Definition try_finally {A} (body : M A) (final : M unit) : M A := fun w =>
  match body w with
  | (r, w') =>
    match final w' with
    | (Ok _, w'') => (r, w'')
    | (Raise e, w'') => (Raise e, w'')
    end
  end.

(** A [for] loop whose iterations append to one list of results. *)
Fixpoint for_each {A B} (body : A -> M (list B)) (l : list A) : M (list B) :=
  match l with
  | [] => mret []
  | x :: l' => ys ← body x; zs ← for_each body l'; mret (ys ++ zs)
  end.

(** [os.chdir(path)].  Whether a directory can be entered is decided by the
    operating system and not by the program: [os w path] tells whether it
    can be when the process is in the state [w].  When it cannot, because the
    directory is missing or may not be searched, the call raises an
    [OSError] and changes nothing. *)
Definition os_chdir (os : World -> string -> bool) (path : string) : M unit := fun w =>
  if os w path then (Ok tt, mkWorld path (sys_path w) (sys_modules w) (log w))
  else (Raise (OSError path), w).

(** An operating system that refuses no directory: the directories that the
    evaluator enters exist and may be entered. *)
Definition permissive : World -> string -> bool := fun _ _ => true.

(** [os.getcwd()], [sys.path.append(path)] *)
Definition getcwd : M string := fun w => (Ok (cwd w), w).
Definition sys_path_append (path : string) : M unit :=
  fun w => (Ok tt, mkWorld (cwd w) (sys_path w ++ [path]) (sys_modules w) (log w)).

(** The entry of a code unit in the module registry and its removal. *)
Definition register_module (code : string) : M unit :=
  fun w => (Ok tt, mkWorld (cwd w) (sys_path w) ({[code]} ∪ sys_modules w) (log w)).
Definition deregister_module (code : string) : M unit :=
  fun w => (Ok tt, mkWorld (cwd w) (sys_path w) (sys_modules w ∖ {[code]}) (log w)).

(** [l.remove(x)] removes the first occurrence of [x]. *)
Fixpoint list_remove (x : string) (l : list string) : option (list string) :=
  match l with
  | [] => None
  | y :: l' => if decide (y = x) then Some l' else (y ::.) <$> list_remove x l'
  end.

(** [sys.path.remove(path)] *)
Definition sys_path_remove (path : string) : M unit := fun w =>
  match list_remove path (sys_path w) with
  | Some l => (Ok tt, mkWorld (cwd w) l (sys_modules w) (log w))
  | None => (Raise (ValueError (NotInList path)), w)
  end.

(** Lines 13-22:
<<
    @contextmanager
    def dir_context(path):
        old_dir = os.getcwd()
        os.chdir(path)
        sys.path.append(path)
        try:
            yield
        finally:
            os.chdir(old_dir)
            sys.path.remove(path)
>>
    [body] is the block of the [with] statement. *)
Definition dir_context_os {A} (os : World -> string -> bool) (path : string)
    (body : M A) : M A :=
  old_dir ← getcwd;
  os_chdir os path;;
  sys_path_append path;;
  try_finally body (os_chdir os old_dir;; sys_path_remove path).

(** The context under [permissive]. *)
Definition dir_context {A} (path : string) (body : M A) : M A :=
  dir_context_os permissive path body.

(** ** The evaluator *)

(** A row of the result table. *)
Record result_row : Type := mkResult {
  r_model : string;
  r_id : pyval;
  r_domain : pyval;
  r_sequence : pyval;
  r_task : pyval;
  r_choices : pyval;
  r_truth : pyval;
  r_prediction : pyval;
  r_hit : pyval
}.

(** The attributes of an [Evaluator]; [comparator] is the [compare] method
    of the comparator object, which may raise. *)
Record Evaluator : Type := mkEvaluator {
  modellist : list string;
  silent : bool;
  domains : gset pyval;
  response_types : gset pyval;
  comparator : pyval -> pyval -> result pyval;
  test_data : DataFrame;
  train_data : option DataFrame
}.

(** [Evaluator.__init__], lines 25-63.  The data files are given by their
    records; [train_datafile] is [None] when no file is named. *)
Definition Evaluator_init (modellist : list string)
    (eval_comparator : pyval -> pyval -> result pyval)
    (test_datafile : list (gmap string pyval))
    (train_datafile : option (list (gmap string pyval)))
    (silent corresponding_data : bool) : result Evaluator :=
  let domains : gset pyval := ∅ in
  let response_types : gset pyval := ∅ in
  (* Load the datasets *)
  test_data ← CCobraData (read_csv test_datafile);
  test_domains ← column "domain" test_data;
  let domains := domains ∪ list_to_set (unique test_domains) in
  test_response_types ← column "response_type" test_data;
  let response_types := response_types ∪ list_to_set (unique test_response_types) in
  match train_datafile with
  | None =>
    Ok (mkEvaluator modellist silent domains response_types eval_comparator
          test_data None)
  | Some train_records =>
    train_data ← CCobraData (read_csv train_records);
    train_domains ← column "domain" train_data;
    let domains := domains ∪ list_to_set (unique train_domains) in
    train_response_types ← column "response_type" train_data;
    let response_types := response_types ∪ list_to_set (unique train_response_types) in
    (* If non-corresponding datasets, update with new identification *)
    if negb corresponding_data then
      train_id ← column "id" train_data;
      let train_ids := unique train_id in
      let new_train_ids :=
        dict_of (zip train_ids (py_range 0 (Z.of_nat (length train_ids)))) in
      let train_data := replace "id" new_train_ids train_data in
      test_id ← column "id" test_data;
      let test_ids := unique test_id in
      let new_test_ids :=
        dict_of (zip test_ids
                   (py_range (Z.of_nat (length train_ids))
                      (Z.of_nat (length train_ids) + Z.of_nat (length test_ids)))) in
      let test_data := replace "id" new_test_ids test_data in
      Ok (mkEvaluator modellist silent domains response_types eval_comparator
            test_data (Some train_data))
    else
      Ok (mkEvaluator modellist silent domains response_types eval_comparator
            test_data (Some train_data))
  end.

(** [extract_optionals], lines 65-68: the fields of the row that are not
    required fields. *)
Definition extract_optionals (data : Row) : gmap string pyval :=
  filter (fun kv => kv.1 ∉ required_fields) (cells data).

(** [extract_demographics], lines 70-80. *)
Definition extract_demographics (data_df : DataFrame) : gmap string pyval :=
  let demo_data := ["age"; "gender"; "education"; "affinity"; "experience"] in
  foldl (fun demographics data =>
           match column data data_df with
           | Ok values =>
             match unique values with
             | [value] => <[data := value]> demographics
             | values => <[data := PList values]> demographics
             end
           | Raise _ => demographics
           end) ∅ demo_data.

(** [train_dict[key]] *)
Definition dict_get (key : string) (d : gmap string tval) : result tval :=
  match d !! key with
  | Some v => Ok v
  | None => Raise (KeyError key)
  end.

(** The body of the loop over the rows of a training subject, lines 119-137:
    [id_info] is the group key, [seq_info] and [row] are what [iterrows]
    yields, the index label of the row and the row. *)
Definition make_train_dict (id_info seq_info : pyval) (row : Row)
    : result (gmap string tval) :=
  domain ← row_get "domain" row;
  task ← row_get "task" row;
  response_type ← row_get "response_type" row;
  choices ← row_get "choices" row;
  let train_dict : gmap string tval :=
    <["item" := TItem (mkItem id_info domain task response_type choices)]>
      (<["sequence" := TVal seq_info]> (<["id" := TVal id_info]> ∅)) in
  let train_dict :=
    foldl (fun d kv => if decide (kv.1 ∈ dom d) then d else <[kv.1 := TVal kv.2]> d)
      train_dict (map_to_list (cells row)) in
  response ← dict_get "response" train_dict;
  match response with
  | TVal (PStr s) =>
    response_type ← dict_get "response_type" train_dict;
    match response_type with
    | TVal rt =>
      decoded ← decode rt (PStr s);
      Ok (<["response" := TVal decoded]> train_dict)
    | TItem _ =>
      decoded ← decode (PInt 0) (PStr s);
      Ok (<["response" := TVal decoded]> train_dict)
    end
  | _ => Ok train_dict
  end.

(** The preparation of the training data, lines 115-138. *)
Definition train_data_dicts (train : DataFrame) : result (list (list (gmap string tval))) :=
  groups ← groupby "id" train;
  comprehension (fun group : pyval * DataFrame =>
      let (id_info, subj_df) := group in
      sorted ← sort_values "sequence" subj_df;
      comprehension (fun row => make_train_dict id_info (PInt (label row)) row) sorted)
    groups.

Section Evaluate.

(** The collaborators that are not part of the evaluator: the class that
    the file of a model defines, if it defines exactly one;
    [os.path.dirname(os.path.abspath(model))], which depends on the working
    directory; [comparator.tuple_to_string], which may raise. *)
Variable load_model : string -> option CCobraModel.
Variable model_dir : string -> string -> string.
Variable tuple_to_string : pyval -> result pyval.

Record Importer : Type := mkImporter {
  imp_idx : nat;
  imp_model : string;
  imp_class : CCobraModel
}.

(** Modelled from the spec: the constructor [modelimporter.ModelImporter]
    loads the file of the model, which registers its code unit in the
    process-wide module registry, and fails with a [ModelDiscoveryError]
    unless exactly one conforming class is found (spec section 4.3). *)
Definition ModelImporter (idx : nat) (model : string) : M Importer :=
  emit (EvImport idx model);;
  register_module model;;
  match load_model model with
  | Some class => mret (mkImporter idx model class)
  | None => raise (ModelDiscoveryError model)
  end.

(** Modelled from the spec: [importer.unimport()] removes the code unit of
    the model from the module registry (spec section 4.3). *)
Definition unimport (importer : Importer) : M unit :=
  emit (EvUnimport (imp_idx importer) (imp_model importer));;
  deregister_module (imp_model importer).

(** The loop over the rows of a test subject, lines 152-190; [model] is
    the state of the subject's copy of the model. *)
Fixpoint trials (self : Evaluator) (idx : nat) (class : CCobraModel)
    (subj_id : pyval) (rows : list Row) (model : mstate class)
    : M (list result_row) :=
  match rows with
  | [] => mret []
  | row :: rows' =>
    let optionals := extract_optionals row in
    (* Evaluation *)
    sequence ← lift (row_get "sequence" row);
    task ← lift (row_get "task" row);
    choices ← lift (row_get "choices" row);
    truth ← lift (row_get "response" row);
    response_type ← lift (row_get "response_type" row);
    domain ← lift (row_get "domain" row);
    truth ← lift (decode response_type truth);
    let item := mkItem subj_id domain task response_type choices in
    emit (EvPredict idx subj_id sequence);;
    predicted ← lift (predict class item optionals model);
    let (prediction, model) := predicted : pyval * mstate class in
    emit (EvCompare idx subj_id sequence);;
    hit ← lift (comparator self prediction truth);
    (* Adapt to true response *)
    let adapt_item := mkItem subj_id domain task response_type choices in
    emit (EvAdapt idx subj_id sequence);;
    model ← lift (adapt class adapt_item truth optionals model);
    display ← lift (tuple_to_string prediction);
    let result :=
      mkResult (name class) subj_id domain sequence task choices truth
        display hit in
    results ← trials self idx class subj_id rows' model;
    mret (result :: results)
  end.

(** The body of the loop over the subjects, lines 143-190. *)
Definition evaluate_subject (self : Evaluator) (idx : nat) (class : CCobraModel)
    (pre_model : mstate class) (group : pyval * DataFrame) : M (list result_row) :=
  let (subj_id, subj_df) := group in
  let model := pre_model in                      (* copy.deepcopy(pre_model) *)
  (* Extract the subject demographics *)
  let demographics := extract_demographics subj_df in
  (* Set the models to new participant *)
  emit (EvStartParticipant idx subj_id);;
  model ← lift (start_participant class subj_id demographics model);
  sorted ← lift (sort_values "sequence" subj_df);
  trials self idx class subj_id sorted model.

(** The pre-training, lines 113-140: when there is training data, its
    records are prepared and handed to [pre_train]. *)
Definition pre_training (self : Evaluator) (idx : nat) (class : CCobraModel)
    (pre_model : mstate class) : M (mstate class) :=
  match train_data self with
  | Some train =>
    (* Prepare training data *)
    dicts ← lift (train_data_dicts train);
    emit (EvPreTrain idx);;
    lift (pre_train class dicts pre_model)
  | None => mret pre_model
  end.

(** The block of the [with] statement, lines 94-194. *)
Definition evaluate_in_context (self : Evaluator) (idx : nat) (model : string)
    : M (list result_row) :=
  importer ← ModelImporter idx model;
  (* Instantiate and prepare the model for predictions *)
  let class := imp_class importer in
  let pre_model := minit class in
  (* Check if model is applicable to domains/response types *)
  let missing_domains := domains self ∖ list_to_set (supported_domains class) in
  if bool_decide (0 < size missing_domains) then
    raise (ValueError (NotApplicableDomains (name class) missing_domains))
  else
  let missing_response_types :=
    response_types self ∖ list_to_set (supported_response_types class) in
  if bool_decide (0 < size missing_response_types) then
    raise (ValueError (NotApplicableResponseTypes (name class) missing_response_types))
  else
  pre_model ← pre_training self idx class pre_model;
  (* Iterate subject *)
  groups ← lift (groupby "id" (test_data self));
  result_data ← for_each (evaluate_subject self idx class pre_model) groups;
  (* De-load the imported model and its dependencies. *)
  unimport importer;;
  mret result_data.

(** The body of the loop over the models, lines 86-194. *)
Definition evaluate_model_os (os : World -> string -> bool) (self : Evaluator)
    (entry : nat * string) : M (list result_row) :=
  let (idx, model) := entry in
  (if silent self then mret tt
   else emit (EvPrint model (idx + 1) (length (modellist self))));;
  (* Setup the model context *)
  old ← getcwd;
  let context := model_dir old model in
  dir_context_os os context (evaluate_in_context self idx model).

(** [enumerate(l)] *)
Definition enumerate {A} (l : list A) : list (nat * A) := imap pair l.

(** [Evaluator.evaluate], lines 82-196: the rows of the result table. *)
Definition evaluate_os (os : World -> string -> bool) (self : Evaluator)
    : M (list result_row) :=
  for_each (evaluate_model_os os self) (enumerate (modellist self)).

(** The loop body and [evaluate] under [permissive]. *)
Definition evaluate_model (self : Evaluator) (entry : nat * string)
    : M (list result_row) :=
  evaluate_model_os permissive self entry.

Definition evaluate (self : Evaluator) : M (list result_row) :=
  evaluate_os permissive self.

End Evaluate.

(** ** Specification vocabulary *)

(** A model covers a registry when every value of the registry is among the
    supported ones. *)
Definition covers (supported : list pyval) (registry : gset pyval) : Prop :=
  registry ⊆ list_to_set supported.

(** The number of occurrences of a character in a string. *)
Fixpoint occurrences (c : ascii) (s : string) : nat :=
  match s with
  | EmptyString => 0
  | String c' s' => (if Ascii.eqb c' c then 1 else 0) + occurrences c s'
  end.

(** The structured response with the given sub-responses, each the list of
    its tokens. *)
Definition nested (subs : list (list string)) : pyval :=
  PList ((fun tokens => PList (PStr <$> tokens)) <$> subs).

(** A row after the remapping of the ids: the same label and, apart from the
    id, the same cells. *)
Definition same_but_id (row row' : Row) : Prop :=
  label row' = label row
  /\ forall key, key <> "id" -> cells row' !! key = cells row !! key.

(** Two columns group the rows alike: two rows agree in one column exactly
    when they agree in the other. *)
Definition same_grouping (old new : list pyval) : Prop :=
  forall (p q : nat) (a b a' b' : pyval),
    old !! p = Some a -> old !! q = Some b ->
    new !! p = Some a' -> new !! q = Some b' ->
    (a = b <-> a' = b').

(** The calls made for one trial. *)
Definition trial_events (idx : nat) (subj_id sequence : pyval) : list event :=
  [EvPredict idx subj_id sequence; EvCompare idx subj_id sequence;
   EvAdapt idx subj_id sequence].

(** The calls of the hooks of a model and of the comparator. *)
Definition is_hook (ev : event) : bool :=
  match ev with
  | EvPreTrain _ | EvStartParticipant _ _ | EvPredict _ _ _
  | EvCompare _ _ _ | EvAdapt _ _ _ => true
  | EvPrint _ _ _ | EvImport _ _ | EvUnimport _ _ => false
  end.

(** A step from one state of the process to another that only calls hooks:
    working directory, search path and module registry stay, and the log
    grows by calls of hooks. *)
Definition hooks_only (w w' : World) : Prop :=
  cwd w' = cwd w /\ sys_path w' = sys_path w /\ sys_modules w' = sys_modules w
  /\ exists events, log w' = log w ++ events /\ Forall (fun ev => is_hook ev = true) events.



(** The result row of a trial: the fields of the row, the decoded response
    as the truth, and for some prediction its display form and its score. *)
Definition row_result (tuple_to_string : pyval -> result pyval) (self : Evaluator)
    (class : CCobraModel) (subj_id : pyval) (row : Row) (r : result_row) : Prop :=
  r_model r = name class
  /\ r_id r = subj_id
  /\ cells row !! "domain" = Some (r_domain r)
  /\ cells row !! "sequence" = Some (r_sequence r)
  /\ cells row !! "task" = Some (r_task r)
  /\ cells row !! "choices" = Some (r_choices r)
  /\ (exists response response_type,
        cells row !! "response" = Some response
        /\ cells row !! "response_type" = Some response_type
        /\ decode response_type response = Ok (r_truth r))
  /\ exists prediction,
       tuple_to_string prediction = Ok (r_prediction r)
       /\ comparator self prediction (r_truth r) = Ok (r_hit r).

(** One trial as the model and the comparator see it.  From the state
    [before], [predict] is called on the item of the row and gives the
    prediction and the state [predicted]; the comparator scores the
    prediction against the decoded response; [adapt] is called on the state
    [predicted] with an item of the same fields and the decoded response and
    gives the state [after]; the result row [r] carries the fields of the
    row, the decoded response, the display form of the prediction and the
    score. *)
Definition trial_step (tuple_to_string : pyval -> result pyval) (self : Evaluator)
    (class : CCobraModel) (subj_id : pyval) (row : Row)
    (before : mstate class) (r : result_row) (after : mstate class) : Prop :=
  exists sequence task choices response response_type domain truth
         prediction predicted hit display,
    cells row !! "sequence" = Some sequence
    /\ cells row !! "task" = Some task
    /\ cells row !! "choices" = Some choices
    /\ cells row !! "response" = Some response
    /\ cells row !! "response_type" = Some response_type
    /\ cells row !! "domain" = Some domain
    /\ decode response_type response = Ok truth
    /\ predict class (mkItem subj_id domain task response_type choices)
         (extract_optionals row) before = Ok (prediction, predicted)
    /\ comparator self prediction truth = Ok hit
    /\ adapt class (mkItem subj_id domain task response_type choices) truth
         (extract_optionals row) predicted = Ok after
    /\ tuple_to_string prediction = Ok display
    /\ r = mkResult (name class) subj_id domain sequence task choices truth display hit.

(** The trials of a list of rows, one after the other: each trial starts
    from the state in which the trial before it has left the model. *)
Inductive trial_chain (tuple_to_string : pyval -> result pyval) (self : Evaluator)
    (class : CCobraModel) (subj_id : pyval)
    : mstate class -> list Row -> list result_row -> mstate class -> Prop :=
  | chain_end (m : mstate class) :
      trial_chain tuple_to_string self class subj_id m [] [] m
  | chain_trial (before after finished : mstate class) (row : Row) (r : result_row)
        (rows : list Row) (results : list result_row) :
      trial_step tuple_to_string self class subj_id row before r after ->
      trial_chain tuple_to_string self class subj_id after rows results finished ->
      trial_chain tuple_to_string self class subj_id before (row :: rows) (r :: results)
        finished.

(** The calls made for a subject whose trials have the given sequence
    values, in this order. *)
Definition subject_events (idx : nat) (subj_id : pyval) (sequences : list pyval)
    : list event :=
  EvStartParticipant idx subj_id :: (sequences ≫= trial_events idx subj_id).

(** The columns by which the rows of the result table are ordered. *)
Definition order_key (r : result_row) : string * pyval * pyval :=
  (r_model r, r_id r, r_sequence r).

(** The sequence values of the trials of a subject, as the loop over the
    trials meets them. *)
Definition subject_sequences (df : DataFrame) (subj_id : pyval) : list pyval :=
  key_of "sequence"
    <$> sort_by (row_leb "sequence") (filter (fun row => cells row !! "id" = Some subj_id) df).

(** The subjects of a table in ascending order of their ids. *)
Definition subjects_ascending (df : DataFrame) : list pyval :=
  sort_by pyval_leb (unique (key_of "id" <$> df)).

(** The order of the result table: model by model in the order of the model
    list; for a model, subject by subject in ascending order of the id; for
    a subject, trial by trial in ascending order of the sequence. *)
Definition expected_order (names : list string) (df : DataFrame)
    : list (string * pyval * pyval) :=
  model_name ← names;
  subj_id ← subjects_ascending df;
  sequence ← subject_sequences df subj_id;
  [(model_name, subj_id, sequence)].

(** The calls of the hooks for a model that is evaluated on all subjects:
    the pre-training if there is training data, and then, subject by subject
    in ascending order of the id, the start of the participant and the
    calls for its trials in ascending order of the sequence. *)
Definition lifecycle (self : Evaluator) (idx : nat) : list event :=
  match train_data self with Some _ => [EvPreTrain idx] | None => [] end
  ++ (subj_id ← subjects_ascending (test_data self);
      EvStartParticipant idx subj_id
        :: (subject_sequences (test_data self) subj_id ≫= trial_events idx subj_id)).

(** The evaluation of one subject of a table, from the pre-trained state of
    the model: the participant is started on a copy of this state with the
    id and the demographics of the subject, and the trials of the subject
    follow one another in ascending order of the sequence. *)
Definition subject_run (tuple_to_string : pyval -> result pyval) (self : Evaluator)
    (class : CCobraModel) (pre_trained : mstate class) (df : DataFrame)
    (subj_id : pyval) (results : list result_row) : Prop :=
  let subj_df := filter (fun row => cells row !! "id" = Some subj_id) df in
  exists (in_order : list Row) (started finished : mstate class),
    in_order ≡ₚ subj_df
    /\ Sorted pyval_le (key_of "sequence" <$> in_order)
    /\ key_of "sequence" <$> in_order = subject_sequences df subj_id
    /\ start_participant class subj_id (extract_demographics subj_df) pre_trained
       = Ok started
    /\ trial_chain tuple_to_string self class subj_id started in_order results finished.

(** The state of a model before the first subject: the state of the new
    instance, pre-trained on the records of the training table if there is
    one. *)
Definition pre_trained_state (self : Evaluator) (class : CCobraModel)
    (pre_trained : mstate class) : Prop :=
  match train_data self with
  | Some train =>
    exists dicts,
      train_data_dicts train = Ok dicts
      /\ pre_train class dicts (minit class) = Ok pre_trained
  | None => pre_trained = minit class
  end.


(** The text of the error that the applicability check raises for a class. *)
Definition applicability_error (self : Evaluator) (class : CCobraModel) : message :=
  let missing_domains := domains self ∖ list_to_set (supported_domains class) in
  if bool_decide (0 < size missing_domains) then
    NotApplicableDomains (name class) missing_domains
  else
    NotApplicableResponseTypes (name class)
      (response_types self ∖ list_to_set (supported_response_types class)).

(** The events of the iteration of the model loop for an inapplicable model. *)
Definition inapplicable_events (self : Evaluator) (idx : nat) (model : string)
    : list event :=
  (if silent self then [] else [EvPrint model (idx + 1) (length (modellist self))])
  ++ [EvImport idx model].

(** ** Concrete datasets and models *)

Module Scenarios.

(** A record of a data file with the required columns. *)
Definition trial (id sequence : Z) (response_type response : string)
    : gmap string pyval :=
  list_to_map
    [("id", PInt id); ("sequence", PInt sequence); ("domain", PStr "syllogistic");
     ("response_type", PStr response_type); ("task", PStr "All;a;b/Some;b;c");
     ("choices", PStr "All;a;c|Some;a;c"); ("response", PStr response)].

(** A model that predicts the list of the responses it has adapted to. *)
Definition echo : CCobraModel :=
  mkModel (list pyval) [] "echo" [PStr "syllogistic"] [PStr "single-choice"]
    (fun _ seen => Ok seen) (fun _ _ seen => Ok seen)
    (fun _ _ seen => Ok (PList seen, seen))
    (fun _ truth _ seen => Ok (seen ++ [truth])).

(** A model for another domain. *)
Definition narrow : CCobraModel :=
  mkModel unit tt "narrow" [PStr "propositional"] [PStr "single-choice"]
    (fun _ s => Ok s) (fun _ _ s => Ok s)
    (fun _ _ s => Ok (PList [], s)) (fun _ _ _ s => Ok s).

(** A model that predicts once and raises when it is asked again after it
    has adapted. *)
Definition fragile : CCobraModel :=
  mkModel (list pyval) [] "fragile" [PStr "syllogistic"] [PStr "single-choice"]
    (fun _ seen => Ok seen) (fun _ _ seen => Ok seen)
    (fun _ _ seen =>
       match seen with
       | [] => Ok (PList [], seen)
       | _ => Raise (RuntimeError "no prediction")
       end)
    (fun _ truth _ seen => Ok (seen ++ [truth])).

Definition load_model (model : string) : option CCobraModel :=
  if String.eqb model "echo.py" then Some echo
  else if String.eqb model "narrow.py" then Some narrow
  else if String.eqb model "fragile.py" then Some fragile
  else None.

Definition model_dir (cwd model : string) : string := cwd +:+ "/models".

Definition tuple_to_string (prediction : pyval) : result pyval := Ok prediction.

Definition exact (prediction truth : pyval) : result pyval :=
  if decide (prediction = truth) then Ok (PInt 1) else Ok (PInt 0).

(** An operating system that refuses one directory. *)
Definition refusing (dir : string) : World -> string -> bool :=
  fun _ path => negb (String.eqb path dir).

Definition world : World := mkWorld "/home/bench" ["/usr/lib/python3"] ∅ [].

(** Scenario A: one subject, two trials, [sequence = [2, 1]]. *)
Definition scenario_A : list (gmap string pyval) :=
  [trial 1 2 "single-choice" "Some;a;c"; trial 1 1 "single-choice" "All;a;c"].

(** Two subjects, the one with the larger id first in the file. *)
Definition two_subjects : list (gmap string pyval) :=
  [trial 2 1 "single-choice" "Some;a;c"; trial 1 1 "single-choice" "All;a;c"].

(** Two datasets that share the id 5 (scenario D). *)
Definition train_file : list (gmap string pyval) :=
  [trial 5 7 "single-choice" "Some;a;c"; trial 9 1 "single-choice" "All;a;c";
   trial 5 3 "single-choice" "All;a;c"].
Definition test_file : list (gmap string pyval) :=
  [trial 8 1 "single-choice" "Some;a;c"; trial 5 1 "single-choice" "All;a;c";
   trial 8 2 "single-choice" "All;a;c"].

(** The evaluator of a model list on a test file alone. *)
Definition evaluator (modellist : list string) (test : list (gmap string pyval))
    : Evaluator :=
  match Evaluator_init modellist exact test None true true with
  | Ok self => self
  | Raise _ => mkEvaluator modellist true ∅ ∅ exact [] None
  end.

(** The evaluator of the two files, not declared corresponding. *)
Definition reconciled : Evaluator :=
  match Evaluator_init ["echo.py"] exact test_file (Some train_file) true false with
  | Ok self => self
  | Raise _ => mkEvaluator [] true ∅ ∅ exact [] None
  end.

(** The training record of the third row of the training file. *)
Definition train_row : Row := mkRow 2 (trial 5 3 "single-choice" "All;a;c").
Definition train_record : gmap string tval :=
  match make_train_dict (PInt 5) (PInt 2) train_row with
  | Ok train_dict => train_dict
  | Raise _ => ∅
  end.

(** The run of [evaluate] for a model list on a test file. *)
Definition run (modellist : list string) (test : list (gmap string pyval))
    : result (list result_row) * World :=
  evaluate load_model model_dir tuple_to_string (evaluator modellist test) world.

End Scenarios.

(** * Properties *)

(** ** Splitting and joining *)

Lemma str_split_nonempty sep s : str_split sep s <> [].
Proof.
  destruct s as [|c s]; simpl; [discriminate|].
  destruct (Ascii.eqb c sep); [discriminate|].
  destruct (str_split sep s); discriminate.
Qed.

Lemma str_join_cons sep piece l :
  l <> [] -> str_join sep (piece :: l) = piece +:+ String sep (str_join sep l).
Proof. destruct l; [congruence|reflexivity]. Qed.

Lemma str_join_split sep s : str_join sep (str_split sep s) = s.
Proof.
  induction s as [|c s IH]; simpl; [reflexivity|].
  destruct (Ascii.eqb_spec c sep) as [->|Hc].
  - rewrite str_join_cons by apply str_split_nonempty. simpl. by rewrite IH.
  - pose proof (str_split_nonempty sep s) as Hne.
    destruct (str_split sep s) as [|piece pieces]; [congruence|].
    destruct pieces as [|piece' pieces].
    + simpl in *. by rewrite IH.
    + change (str_join sep (String c piece :: piece' :: pieces))
        with (String c (piece +:+ String sep (str_join sep (piece' :: pieces)))).
      f_equal. exact IH.
Qed.

Lemma str_split_pieces sep c s :
  (c = sep \/ occurs c s = false) ->
  Forall (fun piece => occurs c piece = false) (str_split sep s).
Proof.
  induction s as [|c' s IH]; intros Hc; simpl.
  - repeat constructor.
  - assert (c = sep \/ occurs c s = false) as Hs.
    { destruct Hc as [->|Hc]; [by left|].
      simpl in Hc. apply orb_false_iff in Hc as [_ Hc]. by right. }
    specialize (IH Hs).
    destruct (Ascii.eqb_spec c' sep) as [->|Hne].
    + constructor; [reflexivity|exact IH].
    + assert (Ascii.eqb c' c = false) as Hcc.
      { destruct Hc as [->|Hc]; [by apply Ascii.eqb_neq|].
        simpl in Hc. by apply orb_false_iff in Hc as [? _]. }
      destruct (str_split sep s) as [|piece pieces].
      * constructor; [|constructor]. simpl. by rewrite Hcc.
      * inversion IH; subst. constructor; [|done]. simpl. by rewrite Hcc.
Qed.

(** ** The response decoding *)

Lemma comprehension_py_split sep (l : list string) :
  comprehension (py_split sep) (PStr <$> l)
  = Ok ((fun x => PList (PStr <$> str_split sep x)) <$> l).
Proof.
  induction l as [|x l IH]; [reflexivity|].
  rewrite !fmap_cons. cbn [comprehension py_split]. rewrite IH. reflexivity.
Qed.

Lemma decode_not_string rt v : isinstance_str v = false -> decode rt v = Ok v.
Proof. unfold decode. by intros ->. Qed.

Lemma decode_plain rt s :
  rt <> PStr "multiple-choice" ->
  decode rt (PStr s)
  = Ok (PList ((fun x => PList (PStr <$> str_split ";" x)) <$> str_split "/" s)).
Proof.
  intros Hrt. unfold decode. cbn [isinstance_str].
  rewrite bool_decide_eq_false_2 by done.
  cbn [py_split mbind result_bind split_each]. rewrite comprehension_py_split.
  reflexivity.
Qed.

Lemma decode_multiple_choice s :
  decode (PStr "multiple-choice") (PStr s) = Raise (AttributeError "list" "split").
Proof.
  unfold decode. cbn [isinstance_str]. rewrite bool_decide_eq_true_2 by done.
  cbn [py_split mbind result_bind split_each]. rewrite comprehension_py_split.
  pose proof (str_split_nonempty "|" s) as Hne.
  destruct (str_split "|" s) as [|x l]; [congruence|]. reflexivity.
Qed.

Lemma decode_structured rt v r :
  decode rt v = Ok r -> isinstance_str r = false.
Proof.
  destruct v as [z|s|l]; try (intros [= <-]; reflexivity).
  destruct (decide (rt = PStr "multiple-choice")) as [->|Hrt].
  - by rewrite decode_multiple_choice.
  - rewrite decode_plain by done. by intros [= <-].
Qed.

(** C1.  On a multiple-choice trial whose stored response is a string the
    decoding does not produce the three nesting levels: the comprehension
    over the [/]-split segments calls [split] on a list, so the decoding
    raises [AttributeError] for every string, and for ["a/b|c"] in
    particular, where [[["a"],["b"]],[["c"]]] is expected. *)
Theorem C1_multiple_choice_decode_raises :
  decode (PStr "multiple-choice") (PStr "a/b|c")
    = Raise (AttributeError "list" "split")
  /\ decode (PStr "multiple-choice") (PStr "a/b|c")
    <> Ok (PList [PList [PList [PStr "a"]; PList [PStr "b"]]; PList [PList [PStr "c"]]])
  /\ forall s, decode (PStr "multiple-choice") (PStr s)
    = Raise (AttributeError "list" "split").
Proof.
  split; [apply decode_multiple_choice|].
  split; [by rewrite decode_multiple_choice|].
  apply decode_multiple_choice.
Qed.

(** C7.  On a trial that is not multiple-choice and whose stored response is
    a string, the decoding returns the list of the [/]-separated
    sub-responses, each the list of its [;]-separated tokens: joining the
    tokens with [;] and the sub-responses with [/] gives the string back, and
    no token contains a separator. *)
Theorem C7_plain_decode (response_type : pyval) (s : string) :
  response_type <> PStr "multiple-choice" ->
  exists subs : list (list string),
    decode response_type (PStr s)
      = Ok (PList ((fun tokens => PList (PStr <$> tokens)) <$> subs))
    /\ subs = str_split ";" <$> str_split "/" s
    /\ str_join "/" (str_join ";" <$> subs) = s
    /\ Forall (Forall (fun token =>
                 occurs ";" token = false /\ occurs "/" token = false)) subs.
Proof.
  intros Hrt. exists (str_split ";" <$> str_split "/" s).
  split; [|split; [reflexivity|split]].
  - rewrite decode_plain by done. do 2 f_equal.
    rewrite <- list_fmap_compose. reflexivity.
  - rewrite <- list_fmap_compose.
    erewrite list_fmap_ext; [rewrite list_fmap_id; apply str_join_split|].
    intros i x _. simpl. apply str_join_split.
  - apply Forall_fmap.
    pose proof (str_split_pieces "/" "/" s (or_introl eq_refl)) as Hsub.
    rewrite Forall_forall in Hsub. apply Forall_forall.
    intros piece Hpiece%Hsub.
    pose proof (str_split_pieces ";" ";" piece (or_introl eq_refl)) as H1.
    pose proof (str_split_pieces ";" "/" piece (or_intror Hpiece)) as H2.
    rewrite Forall_forall in H1, H2. apply Forall_forall. intros tok Htok.
    split; [by apply H1 | by apply H2].
Qed.

(** Scenario B: ["a;b/c"] decodes to [["a","b"],["c"]]. *)
Lemma C7_plain_decode_witness :
  PStr "single-choice" <> PStr "multiple-choice"
  /\ decode (PStr "single-choice") (PStr "a;b/c")
     = Ok (PList [PList [PStr "a"; PStr "b"]; PList [PStr "c"]]).
Proof.
  assert (PStr "single-choice" <> PStr "multiple-choice") as Hne by discriminate.
  split; [exact Hne|].
  destruct (C7_plain_decode (PStr "single-choice") "a;b/c" Hne)
    as (subs & Hdec & Hsubs & _).
  rewrite Hdec, Hsubs. reflexivity.
Defined.

(** C8.  A stored response that is not a string is returned unchanged by the
    decoding, and decoding the outcome of a decoding again changes nothing:
    a decoded response is a list, never a string, and an exception of the
    first decoding is the outcome of both. *)
Theorem C8_decode_idempotent (response_type v : pyval) :
  (isinstance_str v = false -> decode response_type v = Ok v)
  /\ (forall response_type',
        decode response_type v ≫= decode response_type' = decode response_type v).
Proof.
  split; [apply decode_not_string|].
  intros rt'. destruct (decode response_type v) as [r|e] eqn:Hdec; [|reflexivity].
  simpl. apply decode_not_string. eapply decode_structured, Hdec.
Qed.

Lemma C8_decode_idempotent_witness :
  isinstance_str (PList [PList [PStr "a"]]) = false
  /\ decode (PStr "single-choice") (PList [PList [PStr "a"]])
     = Ok (PList [PList [PStr "a"]])
  /\ decode (PStr "single-choice") (PStr "a;b/c") ≫= decode (PStr "single-choice")
     = decode (PStr "single-choice") (PStr "a;b/c").
Proof.
  destruct (C8_decode_idempotent (PStr "single-choice") (PList [PList [PStr "a"]]))
    as [Hfix _].
  destruct (C8_decode_idempotent (PStr "single-choice") (PStr "a;b/c"))
    as [_ Hidem].
  split; [reflexivity|]. split; [apply Hfix; reflexivity|apply Hidem].
Defined.

(** ** The loading context *)

Lemma list_remove_perm x l l' : list_remove x l = Some l' -> l ≡ₚ x :: l'.
Proof.
  revert l'. induction l as [|y l IH]; intros l'; simpl; [discriminate|].
  destruct (decide (y = x)) as [->|Hne]; [by intros [= ->]|].
  destruct (list_remove x l) as [l0|]; [|discriminate].
  intros [= <-]. rewrite (IH l0 eq_refl). apply Permutation_swap.
Qed.

Lemma list_remove_app x l : exists l', list_remove x (l ++ [x]) = Some l'.
Proof.
  induction l as [|y l [l' IH]]; simpl.
  - rewrite decide_True by done. eauto.
  - destruct (decide (y = x)); [eauto|]. rewrite IH. simpl. eauto.
Qed.

Lemma list_remove_app_fresh x l : x ∉ l -> list_remove x (l ++ [x]) = Some l.
Proof.
  induction l as [|y l IH]; intros Hx; simpl.
  - by rewrite decide_True.
  - apply not_elem_of_cons in Hx as [Hne Hx].
    rewrite decide_False by done. by rewrite IH.
Qed.

Lemma dir_context_os_unfold {A} os path (body : M A) w :
  dir_context_os os path body w
  = if os w path then
      let entered := mkWorld path (sys_path w ++ [path]) (sys_modules w) (log w) in
      let w_body := (body entered).2 in
      if os w_body (cwd w) then
        match list_remove path (sys_path w_body) with
        | Some l => ((body entered).1, mkWorld (cwd w) l (sys_modules w_body) (log w_body))
        | None => (Raise (ValueError (NotInList path)),
                   mkWorld (cwd w) (sys_path w_body) (sys_modules w_body) (log w_body))
        end
      else (Raise (OSError (cwd w)), w_body)
    else (Raise (OSError path), w).
Proof.
  unfold dir_context_os, try_finally, getcwd, os_chdir, sys_path_append, sys_path_remove.
  unfold mbind, M_bind. cbn [cwd sys_path sys_modules log].
  destruct (os w path); [|reflexivity]. cbn [cwd sys_path sys_modules log].
  destruct (body _) as [r wb]. cbn [fst snd cwd sys_path sys_modules log].
  destruct (os wb (cwd w)); [|reflexivity]. cbn [cwd sys_path sys_modules log].
  destruct (list_remove path (sys_path wb)); reflexivity.
Qed.

Lemma dir_context_unfold {A} path (body : M A) w :
  dir_context path body w
  = let entered := mkWorld path (sys_path w ++ [path]) (sys_modules w) (log w) in
    let w_body := (body entered).2 in
    match list_remove path (sys_path w_body) with
    | Some l => ((body entered).1, mkWorld (cwd w) l (sys_modules w_body) (log w_body))
    | None => (Raise (ValueError (NotInList path)),
               mkWorld (cwd w) (sys_path w_body) (sys_modules w_body) (log w_body))
    end.
Proof. unfold dir_context. by rewrite dir_context_os_unfold. Qed.



(** ** Computations *)

Lemma bind_ok {A B} (m : M A) (f : A -> M B) w a w' :
  m w = (Ok a, w') -> (m ≫= f) w = f a w'.
Proof. unfold mbind, M_bind. by intros ->. Qed.

Lemma bind_raise {A B} (m : M A) (f : A -> M B) w e w' :
  m w = (Raise e, w') -> (m ≫= f) w = (Raise e, w').
Proof. unfold mbind, M_bind. by intros ->. Qed.

Lemma bind_ok_inv {A B} (m : M A) (f : A -> M B) w b w'' :
  (m ≫= f) w = (Ok b, w'') ->
  exists a w', m w = (Ok a, w') /\ f a w' = (Ok b, w'').
Proof.
  unfold mbind, M_bind. destruct (m w) as [[a|e] w']; [eauto|discriminate].
Qed.

Lemma for_each_app_raise {A B} (body : A -> M (list B)) l1 x l2 w rows w1 e w2 :
  for_each body l1 w = (Ok rows, w1) ->
  body x w1 = (Raise e, w2) ->
  for_each body (l1 ++ x :: l2) w = (Raise e, w2).
Proof.
  revert w rows. induction l1 as [|y l1 IH]; intros w rows Hl1 Hx.
  - simpl in Hl1. unfold mret, M_ret in Hl1.
    assert (w1 = w) as -> by congruence. cbn [app for_each].
    by rewrite (bind_raise _ _ _ _ _ Hx).
  - cbn [app for_each] in *. apply bind_ok_inv in Hl1 as (ys & wy & Hy & Hl1).
    apply bind_ok_inv in Hl1 as (zs & wz & Hz & Hl1).
    assert (wz = w1) as -> by (unfold mret, M_ret in Hl1; congruence).
    rewrite (bind_ok _ _ _ _ _ Hy).
    by rewrite (bind_raise _ _ _ _ _ (IH _ _ Hz Hx)).
Qed.

Lemma enumerate_app {A} (l1 l2 : list A) :
  enumerate (l1 ++ l2) = enumerate l1 ++ imap (fun i => pair (length l1 + i)) l2.
Proof. unfold enumerate. by rewrite imap_app. Qed.

(** ** Applicability *)

Lemma size_difference_pos (registry supported : gset pyval) :
  0 < size (registry ∖ supported) <-> ¬ registry ⊆ supported.
Proof.
  split.
  - intros Hpos Hsub. assert (registry ∖ supported = ∅) as Heq.
    { apply set_eq. intros x. set_solver. }
    rewrite Heq, size_empty in Hpos. lia.
  - intros Hsub. destruct (decide (size (registry ∖ supported) = 0)) as [H0|]; [|lia].
    apply size_empty_inv in H0. exfalso. apply Hsub. set_solver.
Qed.

Lemma evaluate_model_unfold load_model model_dir tuple_to_string self idx model :
  evaluate_model load_model model_dir tuple_to_string self (idx, model)
  = ((if silent self then mret tt
      else emit (EvPrint model (idx + 1) (length (modellist self))));;
     old ← getcwd;
     dir_context (model_dir old model)
       (evaluate_in_context load_model tuple_to_string self idx model)).
Proof. reflexivity. Qed.

Lemma evaluate_unfold load_model model_dir tuple_to_string self :
  evaluate load_model model_dir tuple_to_string self
  = for_each (evaluate_model load_model model_dir tuple_to_string self)
      (enumerate (modellist self)).
Proof. reflexivity. Qed.

Section Applicability.

Variable load_model : string -> option CCobraModel.
Variable model_dir : string -> string -> string.
Variable tuple_to_string : pyval -> result pyval.

Lemma evaluate_in_context_inapplicable self idx model class w :
  load_model model = Some class ->
  ¬ (covers (supported_domains class) (domains self)
     /\ covers (supported_response_types class) (response_types self)) ->
  evaluate_in_context load_model tuple_to_string self idx model w
  = (Raise (ValueError (applicability_error self class)),
     mkWorld (cwd w) (sys_path w) ({[model]} ∪ sys_modules w)
       (log w ++ [EvImport idx model])).
Proof.
  intros Hload Hcover. unfold evaluate_in_context, ModelImporter.
  rewrite Hload. unfold emit, register_module, mbind, M_bind, mret, M_ret, raise.
  cbn [cwd sys_path sys_modules log imp_class]. unfold applicability_error.
  destruct (bool_decide (0 < size (domains self ∖ _))) eqn:Hd; [reflexivity|].
  rewrite bool_decide_eq_true_2; [reflexivity|].
  apply bool_decide_eq_false in Hd. rewrite size_difference_pos in Hd |- *.
  intros Hrt. apply Hcover. split; [|exact Hrt].
  unfold covers. by destruct (decide (domains self ⊆ list_to_set (supported_domains class))).
Qed.

Lemma evaluate_model_inapplicable self idx model class w :
  load_model model = Some class ->
  ¬ (covers (supported_domains class) (domains self)
     /\ covers (supported_response_types class) (response_types self)) ->
  exists w',
    evaluate_model load_model model_dir tuple_to_string self (idx, model) w
    = (Raise (ValueError (applicability_error self class)), w')
    /\ cwd w' = cwd w
    /\ list_remove (model_dir (cwd w) model) (sys_path w ++ [model_dir (cwd w) model])
       = Some (sys_path w')
    /\ sys_modules w' = {[model]} ∪ sys_modules w
    /\ log w' = log w ++ inapplicable_events self idx model.
Proof.
  intros Hload Hcover. rewrite evaluate_model_unfold.
  set (w0 := mkWorld (cwd w) (sys_path w) (sys_modules w)
               (log w ++ if silent self then []
                         else [EvPrint model (idx + 1) (length (modellist self))])).
  assert ((if silent self then mret tt
           else emit (EvPrint model (idx + 1) (length (modellist self)))) w
          = (Ok tt, w0)) as Hprint.
  { unfold w0. destruct (silent self); unfold emit, mret, M_ret;
      [rewrite app_nil_r; by destruct w|done]. }
  erewrite bind_ok by exact Hprint.
  erewrite bind_ok by reflexivity.
  pose proof (Hctx := @dir_context_unfold (list result_row)
                      (model_dir (cwd w0) model)
                      (evaluate_in_context load_model tuple_to_string self idx model) w0).
  cbv zeta in Hctx. rewrite (evaluate_in_context_inapplicable _ _ _ class) in Hctx by done.
  cbn [fst snd cwd sys_path sys_modules log] in Hctx.
  destruct (list_remove_app (model_dir (cwd w0) model) (sys_path w0)) as [l Hl].
  rewrite Hl in Hctx. eexists. split; [exact Hctx|].
  cbn [cwd sys_path sys_modules log]. unfold inapplicable_events, w0.
  cbn [cwd sys_path sys_modules log]. rewrite app_assoc. done.
Qed.

End Applicability.

Section Inapplicable.

Variable load_model : string -> option CCobraModel.
Variable model_dir : string -> string -> string.
Variable tuple_to_string : pyval -> result pyval.

Lemma evaluate_first_inapplicable self pre model post class rows w w1 :
  modellist self = pre ++ model :: post ->
  for_each (evaluate_model load_model model_dir tuple_to_string self)
    (enumerate pre) w = (Ok rows, w1) ->
  load_model model = Some class ->
  ¬ (covers (supported_domains class) (domains self)
     /\ covers (supported_response_types class) (response_types self)) ->
  exists w',
    evaluate load_model model_dir tuple_to_string self w
    = (Raise (ValueError (applicability_error self class)), w')
    /\ cwd w' = cwd w1
    /\ list_remove (model_dir (cwd w1) model) (sys_path w1 ++ [model_dir (cwd w1) model])
       = Some (sys_path w')
    /\ sys_modules w' = {[model]} ∪ sys_modules w1
    /\ log w' = log w1 ++ inapplicable_events self (length pre) model.
Proof.
  intros Hlist Hpre Hload Hcover.
  destruct (evaluate_model_inapplicable load_model model_dir tuple_to_string
              self (length pre) model class w1 Hload Hcover) as (w' & Hrun & Hw').
  exists w'. split; [|exact Hw'].
  rewrite evaluate_unfold. rewrite Hlist, enumerate_app. cbn [imap].
  rewrite Nat.add_0_r. eapply for_each_app_raise; [exact Hpre|exact Hrun].
Qed.

(** C3, as the code has it.  When the models before a model of the list
    have been evaluated and the supported domains or the supported response
    types of this model do not cover the registry, [evaluate] raises the
    [ValueError] of the applicability check, which names the model and the
    missing values.  The error leaves the loop over the models: no result
    table is returned, the rows of the models before are lost with it, and
    the log ends with the import of this model, so that no model after it
    is loaded or evaluated. *)
Theorem C3_inapplicable_model_aborts_run (self : Evaluator)
    (pre post : list string) (model : string) (class : CCobraModel)
    (rows : list result_row) (w w1 : World) :
  modellist self = pre ++ model :: post ->
  for_each (evaluate_model load_model model_dir tuple_to_string self)
    (enumerate pre) w = (Ok rows, w1) ->
  load_model model = Some class ->
  ¬ (covers (supported_domains class) (domains self)
     /\ covers (supported_response_types class) (response_types self)) ->
  exists w',
    evaluate load_model model_dir tuple_to_string self w
    = (Raise (ValueError (applicability_error self class)), w')
    /\ (forall table, (evaluate load_model model_dir tuple_to_string self w).1
                      <> Ok table)
    /\ log w' = log w1 ++ inapplicable_events self (length pre) model
    /\ (forall idx m, length pre < idx ->
          EvImport idx m ∉ inapplicable_events self (length pre) model).
Proof.
  intros Hlist Hpre Hload Hcover.
  destruct (evaluate_first_inapplicable self pre model post class rows w w1
              Hlist Hpre Hload Hcover) as (w' & Hrun & _ & _ & _ & Hlog).
  exists w'. split; [exact Hrun|]. split; [|split; [exact Hlog|]].
  - intros table. by rewrite Hrun.
  - intros idx m Hidx. unfold inapplicable_events.
    rewrite elem_of_app, list_elem_of_singleton.
    intros [Hin|Heq]; [|injection Heq; lia].
    destruct (silent self); [by apply elem_of_nil in Hin|].
    by apply list_elem_of_singleton in Hin.
Qed.

(** C10.  When the models before a model of the list have been evaluated
    and the supported domains or the supported response types of this model
    do not cover the registry, the run ends with the [ValueError] and,
    since the model was imported, nothing but the end of the loading
    context has happened: the events of the iteration contain the import
    and no [unimport], the code unit of the model is still in the module
    registry, the working directory is the one from before the iteration
    and the search path has the entries from before the iteration. *)
Theorem C10_inapplicable_model_not_unimported (self : Evaluator)
    (pre post : list string) (model : string) (class : CCobraModel)
    (rows : list result_row) (w w1 : World) :
  modellist self = pre ++ model :: post ->
  for_each (evaluate_model load_model model_dir tuple_to_string self)
    (enumerate pre) w = (Ok rows, w1) ->
  load_model model = Some class ->
  ¬ (covers (supported_domains class) (domains self)
     /\ covers (supported_response_types class) (response_types self)) ->
  exists msg w' emitted,
    evaluate load_model model_dir tuple_to_string self w
    = (Raise (ValueError msg), w')
    /\ log w' = log w1 ++ emitted
    /\ EvImport (length pre) model ∈ emitted
    /\ (forall idx m, EvUnimport idx m ∉ emitted)
    /\ model ∈ sys_modules w'
    /\ cwd w' = cwd w1
    /\ sys_path w' ≡ₚ sys_path w1
    /\ (model_dir (cwd w1) model ∉ sys_path w1 -> sys_path w' = sys_path w1).
Proof.
  intros Hlist Hpre Hload Hcover.
  destruct (evaluate_first_inapplicable self pre model post class rows w w1
              Hlist Hpre Hload Hcover) as (w' & Hrun & Hcwd & Hpath & Hmod & Hlog).
  exists (applicability_error self class), w',
    (inapplicable_events self (length pre) model).
  split; [exact Hrun|]. split; [exact Hlog|].
  split; [|split; [|split; [|split; [exact Hcwd|split]]]].
  - unfold inapplicable_events. apply elem_of_app. right. apply list_elem_of_here.
  - intros idx m. unfold inapplicable_events.
    rewrite elem_of_app, list_elem_of_singleton. intros [Hin|Heq]; [|discriminate].
    destruct (silent self); [by apply elem_of_nil in Hin|].
    by apply list_elem_of_singleton in Hin.
  - rewrite Hmod. apply elem_of_union_l, elem_of_singleton. reflexivity.
  - apply list_remove_perm in Hpath. rewrite <- Permutation_cons_append in Hpath.
    symmetry. by eapply Permutation_cons_inv.
  - intros Hfresh. rewrite list_remove_app_fresh in Hpath by done. congruence.
Qed.

End Inapplicable.

(** ** Columns and distinct values *)

Lemma comprehension_ok_fmap {A B} (f : A -> result B) (g : A -> B) l :
  (forall x, x ∈ l -> f x = Ok (g x)) -> comprehension f l = Ok (g <$> l).
Proof.
  induction l as [|x l IH]; intros Hf; [reflexivity|].
  cbn [comprehension]. rewrite (Hf x) by apply list_elem_of_here.
  rewrite IH; [reflexivity|]. intros y Hy. apply Hf. by apply list_elem_of_further.
Qed.

Lemma comprehension_ok_inv {A B} (f : A -> result B) l ys :
  comprehension f l = Ok ys -> Forall2 (fun x y => f x = Ok y) l ys.
Proof.
  revert ys. induction l as [|x l IH]; intros ys; cbn [comprehension].
  - intros [= <-]. constructor.
  - destruct (f x) as [y|e] eqn:Hx; [|discriminate]. cbn.
    destruct (comprehension f l) as [ys'|e]; [|discriminate]. cbn.
    intros [= <-]. constructor; [exact Hx|by apply IH].
Qed.

Lemma column_ok_inv key df col :
  column key df = Ok col -> Forall2 (fun row v => cells row !! key = Some v) df col.
Proof.
  intros H%comprehension_ok_inv. eapply Forall2_impl; [exact H|].
  intros row v. unfold row_get. destruct (cells row !! key); congruence.
Qed.

Lemma elem_of_unique x l : x ∈ unique l <-> x ∈ l.
Proof.
  induction l as [|y l IH]; [done|]. cbn [unique].
  rewrite !elem_of_cons, list_elem_of_filter, IH.
  destruct (decide (x = y)); naive_solver.
Qed.

Lemma NoDup_unique l : NoDup (unique l).
Proof.
  induction l as [|y l IH]; cbn [unique]; [constructor|].
  constructor; [|by apply NoDup_filter].
  rewrite list_elem_of_filter. naive_solver.
Qed.

Lemma filter_fmap_inj_on {A B} `{EqDecision A, EqDecision B} (f : A -> B) x (l : list A) :
  (forall y, y ∈ l -> f y = f x -> y = x) ->
  filter (fun z => z <> f x) (f <$> l) = f <$> filter (fun y => y <> x) l.
Proof.
  induction l as [|y l IH]; intros Hinj; [reflexivity|].
  rewrite fmap_cons, !filter_cons.
  rewrite IH by (intros z Hz; apply Hinj; by apply list_elem_of_further).
  destruct (decide (y = x)) as [->|Hne].
  - rewrite decide_False by (intros H; by apply H).
    rewrite decide_False by (intros H; by apply H). reflexivity.
  - rewrite decide_True.
    + rewrite decide_True by done. reflexivity.
    + intros Heq. apply Hne, Hinj; [apply list_elem_of_here|exact Heq].
Qed.

Lemma unique_fmap_inj_on (f : pyval -> pyval) l :
  (forall x y, x ∈ l -> y ∈ l -> f x = f y -> x = y) ->
  unique (f <$> l) = f <$> unique l.
Proof.
  induction l as [|x l IH]; intros Hinj; [reflexivity|].
  rewrite fmap_cons. cbn [unique]. rewrite fmap_cons. f_equal.
  rewrite IH.
  - apply filter_fmap_inj_on. intros y Hy Heq.
    apply (proj1 (elem_of_unique _ _)) in Hy.
    apply Hinj; [by apply list_elem_of_further|apply list_elem_of_here|exact Heq].
  - intros y z Hy Hz. apply Hinj; by apply list_elem_of_further.
Qed.

(** ** The identifier remapping *)

Lemma dict_of_foldl_fresh (pairs : list (pyval * pyval)) (acc : gmap pyval pyval) k :
  k ∉ pairs.*1 ->
  foldl (fun d kv => <[kv.1 := kv.2]> d) acc pairs !! k = acc !! k.
Proof.
  revert acc. induction pairs as [|[k0 v0] pairs IH]; intros acc Hk; [reflexivity|].
  rewrite fmap_cons in Hk. apply not_elem_of_cons in Hk as [Hne Hk].
  cbn [foldl]. rewrite IH by done. cbn. by rewrite lookup_insert_ne.
Qed.

Lemma dict_of_foldl_lookup (pairs : list (pyval * pyval)) (acc : gmap pyval pyval) i k v :
  NoDup pairs.*1 -> pairs !! i = Some (k, v) ->
  foldl (fun d kv => <[kv.1 := kv.2]> d) acc pairs !! k = Some v.
Proof.
  revert acc i. induction pairs as [|[k0 v0] pairs IH]; intros acc i Hnd Hi; [done|].
  rewrite fmap_cons in Hnd. apply NoDup_cons in Hnd as [Hfresh Hnd].
  cbn [foldl]. destruct i as [|i].
  - injection Hi as -> ->. rewrite dict_of_foldl_fresh by done.
    cbn. apply lookup_insert_eq.
  - by eapply IH.
Qed.

Lemma remap_lookup ids a i v :
  NoDup ids -> ids !! i = Some v ->
  dict_of (zip ids (py_range a (a + Z.of_nat (length ids)))) !! v
  = Some (PInt (a + Z.of_nat i)).
Proof.
  intros Hnd Hi. unfold dict_of, py_range.
  replace (a + Z.of_nat (length ids) - a)%Z with (Z.of_nat (length ids)) by lia.
  apply (dict_of_foldl_lookup _ _ i).
  - rewrite fst_zip; [done|]. rewrite length_fmap, length_seqZ. lia.
  - apply lookup_zip_with_Some. exists v, (PInt (a + Z.of_nat i)).
    split; [done|]. split; [done|].
    rewrite list_lookup_fmap, lookup_seqZ_lt; [done|].
    apply lookup_lt_Some in Hi. lia.
Qed.

Lemma comprehension_ok_intro {A B} (f : A -> result B) l ys :
  Forall2 (fun x y => f x = Ok y) l ys -> comprehension f l = Ok ys.
Proof.
  induction 1 as [|x y l ys Hx _ IH]; [reflexivity|].
  cbn [comprehension]. rewrite Hx, IH. reflexivity.
Qed.

Lemma column_replace key d df col :
  column key df = Ok col ->
  column key (replace key d df) = Ok ((fun v => default v (d !! v)) <$> col).
Proof.
  intros Hcol%column_ok_inv. apply comprehension_ok_intro.
  unfold replace. apply Forall2_fmap. eapply Forall2_impl; [exact Hcol|].
  intros row v Hv. unfold row_get. cbn [cells].
  rewrite lookup_alter_eq, Hv. reflexivity.
Qed.

(** What the remapping of a column with the ranks from [a] on does. *)
Lemma remap_column ids_column a :
  let d := dict_of (zip (unique ids_column)
             (py_range a (a + Z.of_nat (length (unique ids_column))))) in
  let new_column := (fun v => default v (d !! v)) <$> ids_column in
  Forall2 (fun old new => exists i : nat,
             unique ids_column !! i = Some old /\ new = PInt (a + Z.of_nat i))
    ids_column new_column
  /\ unique new_column = PInt <$> seqZ a (Z.of_nat (length (unique ids_column))).
Proof.
  intros d new_column.
  assert (forall v, v ∈ ids_column -> exists i : nat,
            unique ids_column !! i = Some v
            /\ default v (d !! v) = PInt (a + Z.of_nat i)) as Hrank.
  { intros v Hv. apply (proj2 (elem_of_unique _ _)) in Hv.
    apply list_elem_of_lookup in Hv as [i Hi].
    exists i. split; [done|]. unfold d.
    by rewrite (remap_lookup _ a i v) by (done || apply NoDup_unique). }
  split.
  - unfold new_column. apply Forall2_fmap_r, Forall_Forall2_diag, Forall_forall.
    intros v Hv. apply Hrank, Hv.
  - unfold new_column. rewrite unique_fmap_inj_on.
    + apply list_eq. intros i. rewrite !list_lookup_fmap.
      destruct (unique ids_column !! i) as [v|] eqn:Hi.
      * assert (v ∈ ids_column) as Hv
          by (apply elem_of_unique, list_elem_of_lookup; eauto).
        destruct (Hrank v Hv) as (j & Hj & Hdef).
        assert (i = j) as <- by (eapply NoDup_lookup; eauto using NoDup_unique).
        rewrite lookup_seqZ_lt by (apply lookup_lt_Some in Hi; lia).
        cbn. by rewrite Hdef.
      * rewrite lookup_seqZ_ge; [done|]. apply lookup_ge_None in Hi. lia.
    + intros x y Hx Hy Heq.
      destruct (Hrank x Hx) as (i & Hi & Hxi), (Hrank y Hy) as (j & Hj & Hyj).
      rewrite Hxi, Hyj in Heq. assert (i = j) as <- by (injection Heq; lia).
      congruence.
Qed.

Lemma ranked_same_grouping (ids : list pyval) (a : Z) old new :
  NoDup ids ->
  Forall2 (fun o n => exists i : nat, ids !! i = Some o /\ n = PInt (a + Z.of_nat i))
    old new ->
  same_grouping old new.
Proof.
  intros Hnd Hrank p q x y x' y' Hp Hq Hp' Hq'.
  destruct (Forall2_lookup_lr _ _ _ _ _ _ Hrank Hp Hp') as (i & Hi & ->).
  destruct (Forall2_lookup_lr _ _ _ _ _ _ Hrank Hq Hq') as (j & Hj & ->).
  split.
  - intros ->. by rewrite (NoDup_lookup _ _ _ _ Hnd Hi Hj).
  - intros [= Heq]. assert (i = j) as -> by lia. congruence.
Qed.

Lemma CCobraData_ok_inv df df' : CCobraData df = Ok df' -> df' = df.
Proof. unfold CCobraData. destruct (list_find _ _) as [[? ?]|]; congruence. Qed.

Lemma result_bind_ok_inv {A B} (r : result A) (f : A -> result B) b :
  r ≫= f = Ok b -> exists a, r = Ok a /\ f a = Ok b.
Proof. destruct r as [a|e]; [eauto|discriminate]. Qed.

(** C5.  When a training file is given and the datasets are not declared
    corresponding, the constructor replaces the subject ids of both tables:
    the [i]-th distinct id of the training table, in order of first
    occurrence, becomes [i], and the [j]-th distinct id of the test table
    becomes [T + j], where [T] is the number of distinct training ids.  The
    new training ids are therefore exactly 0, ..., [T - 1] and the new test
    ids exactly [T], ..., [T + S - 1], two rows of a table have the same new
    id exactly when they had the same id, and no new training id is a new
    test id. *)
Theorem C5_reconciler_ranges (modellist : list string)
    (eval_comparator : pyval -> pyval -> result pyval)
    (test_datafile train_datafile : list (gmap string pyval))
    (silent : bool) (self : Evaluator) :
  Evaluator_init modellist eval_comparator test_datafile (Some train_datafile)
    silent false = Ok self ->
  exists (train_id test_id train_id' test_id' : list pyval) (train' : DataFrame),
    column "id" (read_csv train_datafile) = Ok train_id
    /\ column "id" (read_csv test_datafile) = Ok test_id
    /\ train_data self = Some train'
    /\ column "id" train' = Ok train_id'
    /\ column "id" (test_data self) = Ok test_id'
    /\ let T := length (unique train_id) in
       let S := length (unique test_id) in
       Forall2 (fun old new => exists i : nat,
                  unique train_id !! i = Some old /\ new = PInt (Z.of_nat i))
         train_id train_id'
       /\ Forall2 (fun old new => exists j : nat,
                  unique test_id !! j = Some old /\ new = PInt (Z.of_nat (T + j)))
         test_id test_id'
       /\ unique train_id' = PInt <$> seqZ 0 (Z.of_nat T)
       /\ unique test_id' = PInt <$> seqZ (Z.of_nat T) (Z.of_nat S)
       /\ same_grouping train_id train_id'
       /\ same_grouping test_id test_id'
       /\ (forall a b, a ∈ train_id' -> b ∈ test_id' -> a <> b).
Proof.
  unfold Evaluator_init. intros Hinit.
  apply result_bind_ok_inv in Hinit as (test_df & Htest%CCobraData_ok_inv & Hinit).
  apply result_bind_ok_inv in Hinit as (test_domains & _ & Hinit).
  apply result_bind_ok_inv in Hinit as (test_rts & _ & Hinit).
  apply result_bind_ok_inv in Hinit as (train_df & Htrain%CCobraData_ok_inv & Hinit).
  apply result_bind_ok_inv in Hinit as (train_domains & _ & Hinit).
  apply result_bind_ok_inv in Hinit as (train_rts & _ & Hinit).
  cbn [negb] in Hinit.
  apply result_bind_ok_inv in Hinit as (train_id & Htrain_id & Hinit).
  apply result_bind_ok_inv in Hinit as (test_id & Htest_id & Hinit).
  injection Hinit as <-. subst test_df train_df.
  pose proof (remap_column train_id 0) as [Htr1 Htr2].
  pose proof (remap_column test_id (Z.of_nat (length (unique train_id)))) as [Hte1 Hte2].
  cbv zeta in Htr1, Htr2, Hte1, Hte2.
  eexists train_id, test_id, _, _, _.
  split; [exact Htrain_id|]. split; [exact Htest_id|].
  split; [reflexivity|]. cbn [train_data test_data].
  split; [apply column_replace, Htrain_id|].
  split; [apply column_replace, Htest_id|].
  cbv zeta.
  assert (forall a, a ∈ (fun v => default v (dict_of (zip (unique train_id)
               (py_range 0 (0 + Z.of_nat (length (unique train_id))))) !! v)) <$> train_id ->
            exists i : nat, i < length (unique train_id) /\ a = PInt (Z.of_nat i))
    as Htrain_range.
  { intros a Ha. apply list_elem_of_lookup in Ha as [p Hp].
    destruct (Forall2_lookup_r _ _ _ _ _ Htr1 Hp) as (old & _ & i & Hi & ->).
    exists i. split; [by apply lookup_lt_Some in Hi|reflexivity]. }
  split; [exact Htr1|].
  split.
  { eapply Forall2_impl; [exact Hte1|]. intros old new (j & Hj & ->).
    exists j. split; [done|]. f_equal. lia. }
  split; [exact Htr2|]. split; [exact Hte2|].
  split; [eapply ranked_same_grouping; [apply NoDup_unique|exact Htr1]|].
  split; [eapply ranked_same_grouping; [apply NoDup_unique|exact Hte1]|].
  intros a b Ha Hb. destruct (Htrain_range a Ha) as (i & Hi & ->).
  apply list_elem_of_lookup in Hb as [q Hq].
  destruct (Forall2_lookup_r _ _ _ _ _ Hte1 Hq) as (old & _ & j & _ & ->).
  intros [= Heq]. lia.
Qed.

(** Scenario D: the two files share the id 5; afterwards the training ids
    are 0, 1, 0 and the test ids 2, 3, 2. *)
Lemma C5_reconciler_ranges_witness :
  Evaluator_init ["echo.py"] Scenarios.exact Scenarios.test_file
    (Some Scenarios.train_file) true false = Ok Scenarios.reconciled
  /\ column "id" <$> train_data Scenarios.reconciled
     = Some (Ok [PInt 0; PInt 1; PInt 0])
  /\ column "id" (test_data Scenarios.reconciled) = Ok [PInt 2; PInt 3; PInt 2]
  /\ exists train_id' test_id' train',
       train_data Scenarios.reconciled = Some train'
       /\ column "id" train' = Ok train_id'
       /\ column "id" (test_data Scenarios.reconciled) = Ok test_id'
       /\ same_grouping test_id' [PInt 8; PInt 5; PInt 8]
       /\ forall a b, a ∈ train_id' -> b ∈ test_id' -> a <> b.
Proof.
  assert (Evaluator_init ["echo.py"] Scenarios.exact Scenarios.test_file
            (Some Scenarios.train_file) true false = Ok Scenarios.reconciled)
    as Hinit by (vm_compute; reflexivity).
  split; [exact Hinit|]. split; [vm_compute; reflexivity|].
  split; [vm_compute; reflexivity|].
  destruct (C5_reconciler_ranges _ _ _ _ _ _ Hinit)
    as (train_id & test_id & train_id' & test_id' & train' & _ & Htest & Htrain & Hcol
        & Hcol' & _ & _ & _ & _ & _ & Hgroup & Hdisj).
  exists train_id', test_id', train'.
  split; [exact Htrain|]. split; [exact Hcol|]. split; [exact Hcol'|].
  split; [|exact Hdisj].
  vm_compute in Htest. injection Htest as <-.
  intros p q a b a' b' Hp Hq Hp' Hq'. symmetry. by eapply Hgroup.
Defined.

(** ** Training records *)

Lemma merge_row_lookup (l : list (string * pyval)) (d0 : gmap string tval) key :
  NoDup l.*1 ->
  foldl (fun d kv => if decide (kv.1 ∈ dom d) then d else <[kv.1 := TVal kv.2]> d) d0 l
    !! key
  = match d0 !! key with
    | Some v => Some v
    | None => TVal <$> (list_to_map l : gmap string pyval) !! key
    end.
Proof.
  revert d0. induction l as [|[k v] l IH]; intros d0 Hnd.
  - cbn. by destruct (d0 !! key).
  - rewrite fmap_cons in Hnd. apply NoDup_cons in Hnd as [Hk Hnd].
    cbn [foldl fst snd]. rewrite IH by done. cbn [list_to_map foldr uncurry fst snd].
    destruct (decide (k ∈ dom d0)) as [Hin|Hnin].
    + destruct (d0 !! key) as [x|] eqn:Hkey; [done|].
      rewrite lookup_insert_ne; [done|].
      intros ->. apply elem_of_dom in Hin as [? ?]. congruence.
    + destruct (decide (k = key)) as [->|Hne].
      * rewrite !lookup_insert_eq.
        apply not_elem_of_dom in Hnin. by rewrite Hnin.
      * by rewrite !lookup_insert_ne.
Qed.

Lemma merge_row_cells (row : Row) (d0 : gmap string tval) key :
  foldl (fun d kv => if decide (kv.1 ∈ dom d) then d else <[kv.1 := TVal kv.2]> d) d0
    (map_to_list (cells row)) !! key
  = match d0 !! key with
    | Some v => Some v
    | None => TVal <$> cells row !! key
    end.
Proof.
  rewrite merge_row_lookup by apply NoDup_fst_map_to_list.
  by rewrite list_to_map_to_list.
Qed.

(** C2.  The [sequence] entry of a training record is not the value of the
    row in the [sequence] column: [iterrows] yields the index label of the
    row, and the loop stores that label under the key.  In the training file
    of the scenario the subject 5 has the rows 0 and 2 of the file, with the
    sequence values 7 and 3; its records, in ascending order of the column,
    carry the [sequence] entries 2 and 0.  The other columns are merged in
    as they are. *)
Theorem C2_training_sequence_is_index_label :
  let entries key :=
    fmap (M := list) (fmap (M := list) (fun d : gmap string tval => d !! key))
      <$> train_data_dicts (read_csv Scenarios.train_file) in
  entries "sequence"
    = Ok [[Some (TVal (PInt 2)); Some (TVal (PInt 0))]; [Some (TVal (PInt 1))]]
  /\ (fmap (M := list) (fun group : pyval * DataFrame =>
              key_of "sequence" <$> sort_by (row_leb "sequence") group.2)
       <$> groupby "id" (read_csv Scenarios.train_file))
     = Ok [[PInt 3; PInt 7]; [PInt 1]]
  /\ entries "id"
     = Ok [[Some (TVal (PInt 5)); Some (TVal (PInt 5))]; [Some (TVal (PInt 9))]]
  /\ entries "task"
     = Ok [[Some (TVal (PStr "All;a;b/Some;b;c")); Some (TVal (PStr "All;a;b/Some;b;c"))];
           [Some (TVal (PStr "All;a;b/Some;b;c"))]].
Proof.
  cbv zeta. repeat split; vm_compute; reflexivity.
Qed.

(** ** Sorting *)

Lemma insert_by_perm {A} (leb : A -> A -> bool) x l : insert_by leb x l ≡ₚ x :: l.
Proof.
  induction l as [|y l IH]; cbn [insert_by]; [done|].
  destruct (leb x y); [done|]. rewrite IH. apply Permutation_swap.
Qed.

Lemma sort_by_perm {A} (leb : A -> A -> bool) l : sort_by leb l ≡ₚ l.
Proof.
  induction l as [|x l IH]; [done|].
  cbn [sort_by foldr]. rewrite insert_by_perm. by constructor.
Qed.

Lemma insert_by_sorted {A} (leb : A -> A -> bool) x l :
  (forall a b, leb a b = false -> leb b a = true) ->
  Sorted (fun a b => leb a b = true) l ->
  Sorted (fun a b => leb a b = true) (insert_by leb x l).
Proof.
  intros Htotal. induction 1 as [|y l Hl IH Hhd]; cbn [insert_by].
  - repeat constructor.
  - destruct (leb x y) eqn:Hxy.
    + constructor; [by constructor|by constructor].
    + constructor; [exact IH|].
      destruct Hhd as [|z l Hyz]; cbn [insert_by].
      * constructor. by apply Htotal.
      * destruct (leb x z); constructor; [by apply Htotal|done].
Qed.

Lemma sort_by_sorted {A} (leb : A -> A -> bool) l :
  (forall a b, leb a b = false -> leb b a = true) ->
  Sorted (fun a b => leb a b = true) (sort_by leb l).
Proof.
  intros Htotal. induction l as [|x l IH]; [constructor|].
  cbn [sort_by foldr]. by apply insert_by_sorted.
Qed.

Lemma pyval_leb_total a b : pyval_leb a b = false -> pyval_leb b a = true.
Proof.
  destruct a as [x|s|l], b as [y|t|k]; cbn; try done.
  - intros H. apply Z.leb_le. apply Z.leb_gt in H. lia.
  - intros H. destruct (String.leb_total s t) as [Hst|Hts]; congruence.
Qed.

Lemma sort_values_ok key df col :
  column key df = Ok col ->
  exists sorted,
    sort_values key df = Ok sorted
    /\ sorted ≡ₚ df
    /\ Sorted pyval_le (key_of key <$> sorted).
Proof.
  intros Hcol. exists (sort_by (row_leb key) df).
  unfold sort_values. rewrite Hcol. split; [reflexivity|].
  split; [apply sort_by_perm|].
  apply (Sorted_fmap _ (fun r1 r2 => row_leb key r1 r2 = true) pyval_le); [done|].
  apply sort_by_sorted. intros r1 r2. apply pyval_leb_total.
Qed.

Lemma column_key_of key df col :
  column key df = Ok col -> col = key_of key <$> df.
Proof.
  intros H%column_ok_inv. induction H as [|row v df col Hv _ IH]; [done|].
  rewrite fmap_cons. unfold key_of at 1. rewrite Hv. cbn. by rewrite IH.
Qed.

(** ** The loop over the trials *)

Lemma bind_lift {A B} (r : result A) (f : A -> M B) w :
  (lift r ≫= f) w = match r with Ok a => f a w | Raise e => (Raise e, w) end.
Proof. unfold mbind, M_bind, lift. by destruct r. Qed.

Lemma bind_emit {B} ev (f : unit -> M B) w :
  (emit ev ≫= f) w
  = f tt (mkWorld (cwd w) (sys_path w) (sys_modules w) (log w ++ [ev])).
Proof. reflexivity. Qed.

Lemma row_get_key_of key row v : row_get key row = Ok v -> key_of key row = v.
Proof.
  unfold row_get, key_of. destruct (cells row !! key); [|discriminate].
  by intros [= ->].
Qed.

Lemma lift_ok_inv {A} (r : result A) w a w' :
  lift r w = (Ok a, w') -> r = Ok a /\ w' = w.
Proof. unfold lift. by intros [= -> ->]. Qed.

Lemma row_get_lookup key row v : row_get key row = Ok v -> cells row !! key = Some v.
Proof. unfold row_get. destruct (cells row !! key); congruence. Qed.

Lemma trial_events_bind_cons idx subj_id sequence (sequences : list pyval) :
  (sequence :: sequences) ≫= trial_events idx subj_id
  = EvPredict idx subj_id sequence :: EvCompare idx subj_id sequence
      :: EvAdapt idx subj_id sequence :: (sequences ≫= trial_events idx subj_id).
Proof. reflexivity. Qed.

Section Trials.

Variable tuple_to_string : pyval -> result pyval.

(** Whatever the outcome of the loop over the trials, it has left the
    working directory, the search path and the module registry alone, and
    the calls it has made are an initial part of the calls for the rows in
    their order. *)
Lemma trials_frame self idx class subj_id rows (model : mstate class) w :
  exists made,
    made `prefix_of` ((key_of "sequence" <$> rows) ≫= trial_events idx subj_id)
    /\ log (trials tuple_to_string self idx class subj_id rows model w).2
       = log w ++ made
    /\ cwd (trials tuple_to_string self idx class subj_id rows model w).2 = cwd w
    /\ sys_path (trials tuple_to_string self idx class subj_id rows model w).2
       = sys_path w
    /\ sys_modules (trials tuple_to_string self idx class subj_id rows model w).2
       = sys_modules w.
Proof.
  revert model w. induction rows as [|row rows IH]; intros model w.
  { exists []. cbn [trials]. unfold mret, M_ret. cbn [fst snd].
    rewrite app_nil_r. by repeat split. }
  assert (forall (e : exn) (made : list event) evs,
    made `prefix_of` evs ->
    exists made',
      made' `prefix_of` evs
      /\ log (Raise e : result (list result_row),
              mkWorld (cwd w) (sys_path w) (sys_modules w) (log w ++ made)).2
         = log w ++ made'
      /\ cwd (Raise e : result (list result_row),
              mkWorld (cwd w) (sys_path w) (sys_modules w) (log w ++ made)).2 = cwd w
      /\ sys_path (Raise e : result (list result_row),
                   mkWorld (cwd w) (sys_path w) (sys_modules w) (log w ++ made)).2
         = sys_path w
      /\ sys_modules (Raise e : result (list result_row),
                      mkWorld (cwd w) (sys_path w) (sys_modules w) (log w ++ made)).2
         = sys_modules w) as Hfail.
  { intros e made evs Hmade. exists made. by repeat split. }
  assert (forall e : exn,
    exists made',
      made' `prefix_of` ((key_of "sequence" <$> row :: rows) ≫= trial_events idx subj_id)
      /\ log (Raise e : result (list result_row), w).2 = log w ++ made'
      /\ cwd (Raise e : result (list result_row), w).2 = cwd w
      /\ sys_path (Raise e : result (list result_row), w).2 = sys_path w
      /\ sys_modules (Raise e : result (list result_row), w).2 = sys_modules w) as Hfail0.
  { intros e. exists []. cbn [fst snd]. rewrite app_nil_r.
    split; [apply prefix_nil|by repeat split]. }
  cbn [trials].
  rewrite bind_lift. destruct (row_get "sequence" row) as [sequence|e] eqn:Hseq; [|apply Hfail0].
  rewrite bind_lift. destruct (row_get "task" row) as [task|e]; [|apply Hfail0].
  rewrite bind_lift. destruct (row_get "choices" row) as [choices|e]; [|apply Hfail0].
  rewrite bind_lift. destruct (row_get "response" row) as [truth|e]; [|apply Hfail0].
  rewrite bind_lift. destruct (row_get "response_type" row) as [response_type|e]; [|apply Hfail0].
  rewrite bind_lift. destruct (row_get "domain" row) as [domain|e]; [|apply Hfail0].
  rewrite bind_lift. destruct (decode response_type truth) as [truth'|e]; [|apply Hfail0].
  clear Hfail0.
  rewrite fmap_cons, (row_get_key_of _ _ _ Hseq), trial_events_bind_cons.
  rewrite bind_emit, bind_lift.
  destruct (predict class _ _ model) as [[prediction model']|e];
    [|apply (Hfail e [_]); by eexists].
  rewrite bind_emit, bind_lift. cbn [cwd sys_path sys_modules log].
  destruct (comparator self prediction truth') as [hit|e];
    [|rewrite <- app_assoc; apply (Hfail e [_; _]); by eexists].
  rewrite bind_emit, bind_lift. cbn [cwd sys_path sys_modules log].
  destruct (adapt class _ _ _ model') as [model''|e];
    [|rewrite <- !app_assoc; apply (Hfail e [_; _; _]); by eexists].
  rewrite bind_lift.
  destruct (tuple_to_string prediction) as [display|e];
    [|rewrite <- !app_assoc; apply (Hfail e [_; _; _]); by eexists].
  clear Hfail.
  match goal with
  | |- context [(trials _ _ _ _ _ rows ?m ≫= _) ?w'] =>
      destruct (IH m w') as (made & Hpre & Hlog & Hcwd & Hpath & Hmod);
      unfold mbind, M_bind, mret, M_ret;
      destruct (trials tuple_to_string self idx class subj_id rows m w')
        as [[results|e] w'']
  end; cbn [fst snd cwd sys_path sys_modules log] in *;
    exists (EvPredict idx subj_id sequence :: EvCompare idx subj_id sequence
              :: EvAdapt idx subj_id sequence :: made);
    (split; [by do 3 apply prefix_cons|]);
    (split; [rewrite Hlog, <- !app_assoc; reflexivity|]);
    by repeat split.
Qed.

(** When the loop over the trials returns, the trials of the rows have
    followed one another in the order of the rows, each from the state in
    which the one before has left the model, and all their calls have been
    made. *)
Lemma trials_ok_inv self idx class subj_id rows (model : mstate class) w results w' :
  trials tuple_to_string self idx class subj_id rows model w = (Ok results, w') ->
  (exists finished,
     trial_chain tuple_to_string self class subj_id model rows results finished)
  /\ w' = mkWorld (cwd w) (sys_path w) (sys_modules w)
            (log w ++ ((key_of "sequence" <$> rows) ≫= trial_events idx subj_id)).
Proof.
  revert model w results. induction rows as [|row rows IH]; intros model w results.
  { cbn [trials]. unfold mret, M_ret. intros [= <- <-]. split.
    - exists model. constructor.
    - cbn. rewrite app_nil_r. by destruct w. }
  cbn [trials].
  rewrite bind_lift. destruct (row_get "sequence" row) as [sequence|e] eqn:Hseq; [|done].
  rewrite bind_lift. destruct (row_get "task" row) as [task|e] eqn:Htask; [|done].
  rewrite bind_lift. destruct (row_get "choices" row) as [choices|e] eqn:Hch; [|done].
  rewrite bind_lift. destruct (row_get "response" row) as [truth|e] eqn:Hresp; [|done].
  rewrite bind_lift.
  destruct (row_get "response_type" row) as [response_type|e] eqn:Hrt; [|done].
  rewrite bind_lift. destruct (row_get "domain" row) as [domain|e] eqn:Hdom; [|done].
  rewrite bind_lift.
  destruct (decode response_type truth) as [truth'|e] eqn:Hdec; [|done].
  rewrite bind_emit, bind_lift.
  destruct (predict class _ _ model) as [[prediction model']|e] eqn:Hpredict; [|done].
  rewrite bind_emit, bind_lift. cbn [cwd sys_path sys_modules log].
  destruct (comparator self prediction truth') as [hit|e] eqn:Hhit; [|done].
  rewrite bind_emit, bind_lift. cbn [cwd sys_path sys_modules log].
  destruct (adapt class _ _ _ model') as [model''|e] eqn:Hadapt; [|done].
  rewrite bind_lift.
  destruct (tuple_to_string prediction) as [display|e] eqn:Hdisplay; [|done].
  intros Hrun.
  apply bind_ok_inv in Hrun as (results' & w1 & Hrest & Hrun).
  unfold mret, M_ret in Hrun. injection Hrun as <- <-.
  destruct (IH _ _ _ Hrest) as [[finished Hchain] ->].
  cbn [cwd sys_path sys_modules log]. split.
  - exists finished. econstructor; [|exact Hchain].
    exists sequence, task, choices, truth, response_type, domain, truth',
      prediction, model', hit, display.
    repeat (split; [by (apply row_get_lookup || assumption)|]). reflexivity.
  - rewrite fmap_cons, (row_get_key_of _ _ _ Hseq), trial_events_bind_cons.
    by rewrite <- !app_assoc.
Qed.

Lemma trial_step_row_result self class subj_id row (before after : mstate class) r :
  trial_step tuple_to_string self class subj_id row before r after ->
  row_result tuple_to_string self class subj_id row r
  /\ order_key r = (name class, subj_id, key_of "sequence" row).
Proof.
  intros (sequence & task & choices & response & response_type & domain & truth
          & prediction & predicted & hit & display
          & Hseq & Htask & Hch & Hresp & Hrt & Hdom & Hdec & Hpredict & Hhit
          & Hadapt & Hdisplay & ->).
  split.
  - unfold row_result. cbn.
    do 6 (split; [done|]). split; [by exists response, response_type|].
    by exists prediction.
  - unfold order_key, key_of. cbn. by rewrite Hseq.
Qed.

Lemma trial_chain_rows self class subj_id rows (before finished : mstate class) results :
  trial_chain tuple_to_string self class subj_id before rows results finished ->
  Forall2 (row_result tuple_to_string self class subj_id) rows results
  /\ order_key <$> results
     = (fun row => (name class, subj_id, key_of "sequence" row)) <$> rows.
Proof.
  induction 1 as [m|before after finished row r rows results Hstep _ [IHrows IHkeys]].
  - split; [constructor|reflexivity].
  - destruct (trial_step_row_result _ _ _ _ _ _ _ Hstep) as [Hrow Hkey].
    split; [by constructor|]. rewrite !fmap_cons. by rewrite Hkey, IHkeys.
Qed.

End Trials.

(** ** The loop over the subjects *)

Lemma for_each_ok_inv {A B} (body : A -> M (list B)) (P : A -> list B -> Prop) l w rows w' :
  (forall x w r w', body x w = (Ok r, w') -> P x r) ->
  for_each body l w = (Ok rows, w') ->
  exists chunks, rows = concat chunks /\ Forall2 P l chunks.
Proof.
  intros HP. revert w rows. induction l as [|x l IH]; intros w rows Hrun.
  - cbn in Hrun. unfold mret, M_ret in Hrun. injection Hrun as <- <-.
    exists []. split; [done|constructor].
  - cbn [for_each] in Hrun.
    apply bind_ok_inv in Hrun as (ys & w1 & Hx & Hrun).
    apply bind_ok_inv in Hrun as (zs & w2 & Hl & Hrun).
    unfold mret, M_ret in Hrun. injection Hrun as <- <-.
    destruct (IH _ _ Hl) as (chunks & -> & Hchunks).
    exists (ys :: chunks). split; [done|]. constructor; [by eapply HP|done].
Qed.

Section Order.

Variable load_model : string -> option CCobraModel.
Variable model_dir : string -> string -> string.
Variable tuple_to_string : pyval -> result pyval.

(** Whatever the outcome of the iteration for a subject, it has left the
    working directory, the search path and the module registry alone, and
    the calls it has made are an initial part of the calls for the
    subject. *)
Lemma evaluate_subject_frame self idx class pre_model subj_id subj_df w :
  exists made,
    let out := evaluate_subject tuple_to_string self idx class pre_model
                 (subj_id, subj_df) w in
    made `prefix_of`
      subject_events idx subj_id
        (key_of "sequence" <$> sort_by (row_leb "sequence") subj_df)
    /\ log out.2 = log w ++ made
    /\ cwd out.2 = cwd w /\ sys_path out.2 = sys_path w
    /\ sys_modules out.2 = sys_modules w.
Proof.
  cbv zeta. unfold evaluate_subject, subject_events.
  rewrite bind_emit, bind_lift.
  destruct (start_participant class _ _ pre_model) as [started|e].
  2: { exists [EvStartParticipant idx subj_id]. cbn [fst snd cwd sys_path sys_modules log].
       split; [by eexists|by repeat split]. }
  rewrite bind_lift. unfold sort_values.
  destruct (column "sequence" subj_df) as [col|e]; cbn [mbind result_bind].
  2: { exists [EvStartParticipant idx subj_id]. cbn [fst snd cwd sys_path sys_modules log].
       split; [by eexists|by repeat split]. }
  match goal with
  | |- context [trials _ _ _ _ _ ?rows ?m ?w'] =>
      destruct (trials_frame tuple_to_string self idx class subj_id rows m w')
        as (made & Hpre & Hlog & Hcwd & Hpath & Hmod)
  end.
  exists (EvStartParticipant idx subj_id :: made).
  split; [by apply prefix_cons|].
  split; [rewrite Hlog; cbn [log]; by rewrite <- app_assoc|].
  by repeat split.
Qed.

(** When the iteration for a subject returns, the participant has been
    started on the copy of the pre-trained state, and the trials have
    followed one another in the order of [sort_values]. *)
Lemma evaluate_subject_ok_inv self idx class pre_model subj_id subj_df w results w' :
  evaluate_subject tuple_to_string self idx class pre_model (subj_id, subj_df) w
  = (Ok results, w') ->
  (exists col, column "sequence" subj_df = Ok col)
  /\ (exists started finished,
        start_participant class subj_id (extract_demographics subj_df) pre_model
        = Ok started
        /\ trial_chain tuple_to_string self class subj_id started
             (sort_by (row_leb "sequence") subj_df) results finished)
  /\ w' = mkWorld (cwd w) (sys_path w) (sys_modules w)
            (log w ++ subject_events idx subj_id
                        (key_of "sequence" <$> sort_by (row_leb "sequence") subj_df)).
Proof.
  unfold evaluate_subject, subject_events. rewrite bind_emit, bind_lift.
  destruct (start_participant class _ _ pre_model) as [started|e] eqn:Hstart; [|done].
  rewrite bind_lift. unfold sort_values.
  destruct (column "sequence" subj_df) as [col|e]; cbn [mbind result_bind]; [|done].
  intros Hrun. apply trials_ok_inv in Hrun as [[finished Hchain] ->].
  cbn [cwd sys_path sys_modules log].
  split; [eauto|]. split; [eauto|]. by rewrite <- app_assoc.
Qed.

Lemma evaluate_subject_ok self idx class pre_model group w results w' :
  evaluate_subject tuple_to_string self idx class pre_model group w = (Ok results, w') ->
  order_key <$> results
  = (fun row => (name class, group.1, key_of "sequence" row))
      <$> sort_by (row_leb "sequence") group.2.
Proof.
  destruct group as [subj_id subj_df]. intros Hrun.
  apply evaluate_subject_ok_inv in Hrun as (_ & (started & finished & _ & Hchain) & _).
  by apply trial_chain_rows in Hchain as [_ Hkeys].
Qed.

Lemma pre_training_ok_inv self idx class w pre_trained w' :
  pre_training self idx class (minit class) w = (Ok pre_trained, w') ->
  pre_trained_state self class pre_trained
  /\ w' = mkWorld (cwd w) (sys_path w) (sys_modules w)
            (log w ++ match train_data self with
                      | Some _ => [EvPreTrain idx]
                      | None => []
                      end).
Proof.
  unfold pre_training, pre_trained_state. destruct (train_data self) as [train|].
  - rewrite bind_lift. destruct (train_data_dicts train) as [dicts|e]; [|done].
    rewrite bind_emit. unfold lift.
    destruct (pre_train class dicts (minit class)) as [m|e] eqn:Hpre; [|done].
    intros [= <- <-]. split; [by exists dicts|reflexivity].
  - unfold mret, M_ret. intros [= <- <-]. split; [reflexivity|].
    rewrite app_nil_r. by destruct w.
Qed.


Lemma ModelImporter_run idx model w :
  ModelImporter load_model idx model w
  = (match load_model model with
     | Some class => Ok (mkImporter idx model class)
     | None => Raise (ModelDiscoveryError model)
     end,
     mkWorld (cwd w) (sys_path w) ({[model]} ∪ sys_modules w)
       (log w ++ [EvImport idx model])).
Proof.
  unfold ModelImporter. rewrite bind_emit.
  unfold register_module, mbind, M_bind, raise, mret, M_ret.
  cbn [cwd sys_path sys_modules log]. by destruct (load_model model).
Qed.

Lemma evaluate_in_context_ok self idx model w results w' :
  evaluate_in_context load_model tuple_to_string self idx model w = (Ok results, w') ->
  exists class,
    load_model model = Some class
    /\ covers (supported_domains class) (domains self)
    /\ covers (supported_response_types class) (response_types self)
    /\ order_key <$> results = expected_order [name class] (test_data self).
Proof.
  unfold evaluate_in_context. intros Hrun.
  apply bind_ok_inv in Hrun as (importer & w0 & Himport & Hrun).
  rewrite ModelImporter_run in Himport.
  destruct (load_model model) as [class|] eqn:Hload; [|discriminate].
  injection Himport as <- <-.
  exists class. split; [reflexivity|]. cbn [imp_class] in Hrun.
  destruct (bool_decide (0 < size (domains self ∖ _))) eqn:Hd; [discriminate|].
  destruct (bool_decide (0 < size (response_types self ∖ _))) eqn:Hrt; [discriminate|].
  apply bool_decide_eq_false in Hd, Hrt.
  rewrite size_difference_pos in Hd, Hrt.
  split; [unfold covers; by destruct (decide (domains self ⊆ list_to_set (supported_domains class)))|].
  split; [unfold covers; by destruct (decide (response_types self ⊆ list_to_set (supported_response_types class)))|].
  apply bind_ok_inv in Hrun as (pre_model & w1 & _ & Hrun).
  rewrite bind_lift in Hrun.
  destruct (groupby "id" (test_data self)) as [groups|e] eqn:Hgroups; [|discriminate].
  apply bind_ok_inv in Hrun as (result_data & w2 & Hloop & Hrun).
  apply bind_ok_inv in Hrun as ([] & w3 & _ & Hrun).
  unfold mret, M_ret in Hrun. injection Hrun as <- <-.
  apply (for_each_ok_inv _
           (fun group r => order_key <$> r
              = (fun row => (name class, group.1, key_of "sequence" row))
                  <$> sort_by (row_leb "sequence") group.2)) in Hloop.
  2: { intros group w0 r w0'. apply evaluate_subject_ok. }
  destruct Hloop as (chunks & -> & Hchunks).
  unfold groupby in Hgroups.
  destruct (column "id" (test_data self)) as [col|e] eqn:Hcol; [|discriminate].
  cbn [mbind result_bind] in Hgroups. injection Hgroups as <-.
  apply column_key_of in Hcol. subst col.
  unfold expected_order. cbn [mbind list_bind]. rewrite app_nil_r.
  fold (subjects_ascending (test_data self)) in Hchunks.
  revert chunks Hchunks.
  induction (subjects_ascending (test_data self)) as [|k keys IH]; intros chunks Hchunks.
  - apply Forall2_nil_inv_l in Hchunks as ->. reflexivity.
  - rewrite fmap_cons in Hchunks.
    apply Forall2_cons_inv_l in Hchunks as (r & chunks' & Hr & Hchunks & ->).
    cbn [concat mbind list_bind]. rewrite fmap_app, (IH _ Hchunks).
    f_equal. rewrite Hr. cbn [fst snd]. unfold subject_sequences.
    generalize (sort_by (row_leb "sequence")
                  (filter (fun row => cells row !! "id" = Some k) (test_data self))).
    clear. intros rows. induction rows as [|row rows IHrows]; [reflexivity|].
    rewrite !fmap_cons. cbn [mbind list_bind]. by rewrite <- IHrows.
Qed.

End Order.

Lemma expected_order_cons model_name names df :
  expected_order (model_name :: names) df
  = expected_order [model_name] df ++ expected_order names df.
Proof. unfold expected_order. cbn [mbind list_bind]. by rewrite app_nil_r. Qed.

Lemma snd_enumerate {A} (l : list A) : (enumerate l).*2 = l.
Proof.
  unfold enumerate. apply list_eq. intros i.
  rewrite list_lookup_fmap, list_lookup_imap. by destruct (l !! i).
Qed.

Lemma subjects_ascending_spec df :
  Sorted pyval_le (subjects_ascending df)
  /\ NoDup (subjects_ascending df)
  /\ forall subj_id, subj_id ∈ subjects_ascending df <-> subj_id ∈ key_of "id" <$> df.
Proof.
  unfold subjects_ascending. split; [|split].
  - apply sort_by_sorted. apply pyval_leb_total.
  - rewrite sort_by_perm. apply NoDup_unique.
  - intros subj_id. rewrite sort_by_perm. apply elem_of_unique.
Qed.

Lemma subject_sequences_spec df subj_id :
  Sorted pyval_le (subject_sequences df subj_id)
  /\ subject_sequences df subj_id
     ≡ₚ key_of "sequence" <$> filter (fun row => cells row !! "id" = Some subj_id) df.
Proof.
  unfold subject_sequences. split.
  - apply (Sorted_fmap _ (fun r1 r2 => row_leb "sequence" r1 r2 = true) pyval_le); [done|].
    apply sort_by_sorted. intros r1 r2. apply pyval_leb_total.
  - by rewrite sort_by_perm.
Qed.

Section ResultOrder.

Variable load_model : string -> option CCobraModel.
Variable model_dir : string -> string -> string.
Variable tuple_to_string : pyval -> result pyval.

Lemma evaluate_model_ok self entry w results w' :
  evaluate_model load_model model_dir tuple_to_string self entry w = (Ok results, w') ->
  exists class,
    load_model entry.2 = Some class
    /\ covers (supported_domains class) (domains self)
    /\ covers (supported_response_types class) (response_types self)
    /\ order_key <$> results = expected_order [name class] (test_data self).
Proof.
  destruct entry as [idx model]. rewrite evaluate_model_unfold. intros Hrun.
  apply bind_ok_inv in Hrun as ([] & w0 & _ & Hrun).
  apply bind_ok_inv in Hrun as (old & w1 & Hold & Hrun).
  unfold getcwd in Hold. injection Hold as <- <-.
  rewrite dir_context_unfold in Hrun. cbv zeta in Hrun.
  destruct (list_remove _ _); [|discriminate].
  destruct (evaluate_in_context _ _ _ _ _ _) as [r wb] eqn:Hbody.
  cbn [fst snd] in Hrun. injection Hrun as -> <-.
  by eapply evaluate_in_context_ok.
Qed.

(** C4, as the code has it.  When [evaluate] returns the result table,
    every model of the list has been loaded, and the rows follow the order
    of the model list, for a model the ascending order of the subject ids,
    as [groupby] sorts its group keys, and for a subject the ascending
    order of the sequence values.  The subjects are the distinct ids of the
    test table, each once. *)
Theorem C4_result_table_order (self : Evaluator) (w w' : World)
    (table : list result_row) :
  evaluate load_model model_dir tuple_to_string self w = (Ok table, w') ->
  exists classes,
    Forall2 (fun model class => load_model model = Some class) (modellist self) classes
    /\ order_key <$> table = expected_order (name <$> classes) (test_data self)
    /\ Sorted pyval_le (subjects_ascending (test_data self))
    /\ NoDup (subjects_ascending (test_data self))
    /\ (forall subj_id,
          subj_id ∈ subjects_ascending (test_data self)
          <-> subj_id ∈ key_of "id" <$> test_data self)
    /\ forall subj_id,
         Sorted pyval_le (subject_sequences (test_data self) subj_id)
         /\ subject_sequences (test_data self) subj_id
            ≡ₚ key_of "sequence"
                 <$> filter (fun row => cells row !! "id" = Some subj_id) (test_data self).
Proof.
  rewrite evaluate_unfold. intros Hrun.
  apply (for_each_ok_inv _
           (fun entry r => exists class,
              load_model entry.2 = Some class
              /\ order_key <$> r = expected_order [name class] (test_data self)))
    in Hrun.
  2: { intros entry w0 r w0' Hentry.
       destruct (evaluate_model_ok self entry w0 r w0' Hentry) as (class & ? & _ & _ & ?).
       eauto. }
  destruct Hrun as (chunks & -> & Hchunks).
  assert (exists classes,
            Forall2 (fun entry class => load_model entry.2 = Some class)
              (enumerate (modellist self)) classes
            /\ order_key <$> concat chunks
               = expected_order (name <$> classes) (test_data self))
    as (classes & Hclasses & Horder).
  { induction Hchunks as [|entry r entries chunks (class & Hload & Hr) _ IH].
    - exists []. split; [constructor|reflexivity].
    - destruct IH as (classes & Hclasses & Horder).
      exists (class :: classes). split; [by constructor|].
      rewrite fmap_cons, expected_order_cons. cbn [concat].
      by rewrite fmap_app, Hr, Horder. }
  exists classes. split.
  { rewrite <- (snd_enumerate (modellist self)). apply Forall2_fmap_l.
    eapply Forall2_impl; [exact Hclasses|]. by intros entry class. }
  split; [exact Horder|].
  destruct (subjects_ascending_spec (test_data self)) as (? & ? & ?).
  split; [done|]. split; [done|]. split; [done|].
  apply subject_sequences_spec.
Qed.

(** C6.  The trials of a subject are predicted, scored and adapted one
    after the other in ascending order of the [sequence] column.  There is
    an arrangement of the rows of the subject in ascending order of the
    sequence such that, whatever the outcome of the iteration, the calls
    made are an initial part of: [start_participant], then [predict],
    [compare], [adapt] for each row of the arrangement in turn.  When the
    iteration returns, all of these calls have been made and have
    returned: the participant is started on the copy of the pre-trained
    state, each trial is predicted in the state in which the adaptation to
    the trial before it has left the model, and the result rows are those
    of the trials in this order. *)
Theorem C6_trials_in_ascending_sequence (self : Evaluator) (idx : nat)
    (class : CCobraModel) (pre_model : mstate class)
    (subj_id : pyval) (subj_df : DataFrame) (col : list pyval) (w : World) :
  column "sequence" subj_df = Ok col ->
  exists in_order : list Row,
    let out := evaluate_subject tuple_to_string self idx class pre_model
                 (subj_id, subj_df) w in
    let sequences := key_of "sequence" <$> in_order in
    in_order ≡ₚ subj_df
    /\ Sorted pyval_le sequences
    /\ sequences ≡ₚ col
    /\ (exists made,
          made `prefix_of` subject_events idx subj_id sequences
          /\ log out.2 = log w ++ made)
    /\ forall results, out.1 = Ok results ->
         log out.2 = log w ++ subject_events idx subj_id sequences
         /\ r_sequence <$> results = sequences
         /\ exists started finished,
              start_participant class subj_id (extract_demographics subj_df) pre_model
              = Ok started
              /\ trial_chain tuple_to_string self class subj_id started in_order
                   results finished.
Proof.
  intros Hcol.
  destruct (sort_values_ok "sequence" subj_df col Hcol) as (sorted & Hsort & Hperm & Hsorted).
  unfold sort_values in Hsort. rewrite Hcol in Hsort.
  cbn [mbind result_bind] in Hsort. injection Hsort as <-.
  exists (sort_by (row_leb "sequence") subj_df). cbv zeta.
  split; [exact Hperm|]. split; [exact Hsorted|].
  split; [rewrite (column_key_of _ _ _ Hcol); by rewrite Hperm|].
  split.
  - destruct (evaluate_subject_frame tuple_to_string self idx class pre_model
                subj_id subj_df w) as (made & Hpre & Hlog & _).
    by exists made.
  - intros results Hres.
    destruct (evaluate_subject tuple_to_string self idx class pre_model
                (subj_id, subj_df) w) as [r w'] eqn:Hrun.
    cbn [fst snd] in *. subst r.
    apply evaluate_subject_ok_inv in Hrun
      as (_ & (started & finished & Hstart & Hchain) & ->).
    cbn [log]. split; [reflexivity|]. split; [|by exists started, finished].
    apply trial_chain_rows in Hchain as [_ Hkeys].
    transitivity (snd <$> (order_key <$> results)).
    + rewrite <- list_fmap_compose. reflexivity.
    + rewrite Hkeys, <- list_fmap_compose. reflexivity.
Qed.

End ResultOrder.

(** C4 refuted on a test file whose first row belongs to subject 2 and whose
    second row to subject 1: in order of first occurrence the subjects are 2,
    1, and the result table has the row of subject 1 first. *)
Lemma C4_counterexample :
  unique (key_of "id" <$> read_csv Scenarios.two_subjects) = [PInt 2; PInt 1]
  /\ test_data (Scenarios.evaluator ["echo.py"] Scenarios.two_subjects)
     = read_csv Scenarios.two_subjects
  /\ exists table,
       (Scenarios.run ["echo.py"] Scenarios.two_subjects).1 = Ok table
       /\ r_id <$> table = [PInt 1; PInt 2].
Proof.
  split; [vm_compute; reflexivity|]. split; [vm_compute; reflexivity|].
  eexists. split; [vm_compute; reflexivity|]. reflexivity.
Qed.

Lemma C4_result_table_order_witness :
  exists table w',
    evaluate Scenarios.load_model Scenarios.model_dir Scenarios.tuple_to_string
      (Scenarios.evaluator ["echo.py"] Scenarios.two_subjects) Scenarios.world
    = (Ok table, w')
    /\ order_key <$> table = [("echo", PInt 1, PInt 1); ("echo", PInt 2, PInt 1)].
Proof.
  eexists _, _. split; [vm_compute; reflexivity|].
  edestruct (C4_result_table_order Scenarios.load_model Scenarios.model_dir
               Scenarios.tuple_to_string
               (Scenarios.evaluator ["echo.py"] Scenarios.two_subjects)
               Scenarios.world) as (classes & Hclasses & Horder & _).
  { vm_compute. reflexivity. }
  etransitivity; [exact Horder|].
  assert (classes = [Scenarios.echo]) as ->.
  { revert Hclasses. vm_compute. intros Hclasses.
    apply Forall2_cons_inv_l in Hclasses as (class & rest & [= <-] & Hrest & ->).
    by apply Forall2_nil_inv_l in Hrest as ->. }
  vm_compute. reflexivity.
Defined.

(** Scenario A: the file lists the trial with sequence 2 before the trial
    with sequence 1.  The trial with sequence 1 is predicted, scored and
    adapted first: the model [echo], which predicts the responses it has
    adapted to, predicts nothing for it, and for the trial with sequence 2
    it predicts the response of the trial with sequence 1. *)
Lemma C6_trials_in_ascending_sequence_witness :
  column "sequence" (read_csv Scenarios.scenario_A) = Ok [PInt 2; PInt 1]
  /\ exists results w',
       evaluate_subject Scenarios.tuple_to_string
         (Scenarios.evaluator ["echo.py"] Scenarios.scenario_A) 0 Scenarios.echo []
         (PInt 1, read_csv Scenarios.scenario_A) Scenarios.world = (Ok results, w')
       /\ r_sequence <$> results = [PInt 1; PInt 2]
       /\ r_prediction <$> results
          = [PList []; PList [PList [PList [PStr "All"; PStr "a"; PStr "c"]]]]
       /\ log w' = [EvStartParticipant 0 (PInt 1);
                    EvPredict 0 (PInt 1) (PInt 1); EvCompare 0 (PInt 1) (PInt 1);
                    EvAdapt 0 (PInt 1) (PInt 1);
                    EvPredict 0 (PInt 1) (PInt 2); EvCompare 0 (PInt 1) (PInt 2);
                    EvAdapt 0 (PInt 1) (PInt 2)]
       /\ (exists in_order started finished,
            in_order ≡ₚ read_csv Scenarios.scenario_A
            /\ Sorted pyval_le (key_of "sequence" <$> in_order)
            /\ trial_chain Scenarios.tuple_to_string
                 (Scenarios.evaluator ["echo.py"] Scenarios.scenario_A) Scenarios.echo
                 (PInt 1) started in_order results finished)
       /\ evaluate_subject Scenarios.tuple_to_string
            (Scenarios.evaluator ["fragile.py"] Scenarios.scenario_A) 0 Scenarios.fragile []
            (PInt 1, read_csv Scenarios.scenario_A) Scenarios.world
          = (Raise (RuntimeError "no prediction"),
             mkWorld "/home/bench" ["/usr/lib/python3"] ∅
               [EvStartParticipant 0 (PInt 1);
                EvPredict 0 (PInt 1) (PInt 1); EvCompare 0 (PInt 1) (PInt 1);
                EvAdapt 0 (PInt 1) (PInt 1); EvPredict 0 (PInt 1) (PInt 2)]).
Proof.
  assert (column "sequence" (read_csv Scenarios.scenario_A) = Ok [PInt 2; PInt 1])
    as Hcol by (vm_compute; reflexivity).
  split; [exact Hcol|].
  destruct (evaluate_subject Scenarios.tuple_to_string
              (Scenarios.evaluator ["echo.py"] Scenarios.scenario_A) 0 Scenarios.echo []
              (PInt 1, read_csv Scenarios.scenario_A) Scenarios.world)
    as [[results|e] w'] eqn:Hrun; [|vm_compute in Hrun; discriminate].
  exists results, w'. split; [reflexivity|].
  destruct (C6_trials_in_ascending_sequence Scenarios.tuple_to_string
              (Scenarios.evaluator ["echo.py"] Scenarios.scenario_A) 0 Scenarios.echo []
              (PInt 1) (read_csv Scenarios.scenario_A) _ Scenarios.world Hcol)
    as (in_order & Hperm & Hsorted & _ & _ & Hok).
  cbv zeta in Hok. rewrite Hrun in Hok.
  destruct (Hok results eq_refl) as (_ & _ & started & finished & _ & Hchain).
  vm_compute in Hrun. injection Hrun as <- <-.
  split; [reflexivity|]. split; [reflexivity|]. split; [reflexivity|].
  split; [by exists in_order, started, finished|].
  vm_compute. reflexivity.
Defined.

(** ** The scenarios *)

Lemma narrow_not_covering modellist :
  ¬ (covers (supported_domains Scenarios.narrow)
       (domains (Scenarios.evaluator modellist Scenarios.scenario_A))
     /\ covers (supported_response_types Scenarios.narrow)
          (response_types (Scenarios.evaluator modellist Scenarios.scenario_A))).
Proof.
  intros [Hcover _]. unfold covers in Hcover.
  assert (PStr "syllogistic" ∈ domains (Scenarios.evaluator modellist Scenarios.scenario_A))
    as Hin by (apply (bool_decide_unpack _); vm_compute; exact I).
  apply Hcover in Hin. apply (bool_decide_pack _) in Hin.
  vm_compute in Hin. exact Hin.
Qed.


(** C3 refuted on the model list [narrow.py, echo.py]: the first model does
    not support the domain of the data, and instead of the rows of the second
    model, which it produces when evaluated alone, [evaluate] gives the error
    of the first and never imports the second. *)
Lemma C3_counterexample :
  (exists table,
     (Scenarios.run ["echo.py"] Scenarios.scenario_A).1 = Ok table /\ length table = 2)
  /\ (forall table,
       (Scenarios.run ["narrow.py"; "echo.py"] Scenarios.scenario_A).1 <> Ok table)
  /\ log (Scenarios.run ["narrow.py"; "echo.py"] Scenarios.scenario_A).2
     = [EvImport 0 "narrow.py"].
Proof.
  split; [|split].
  - eexists. split; [vm_compute; reflexivity|reflexivity].
  - intros table. vm_compute. discriminate.
  - vm_compute. reflexivity.
Qed.

Lemma C3_inapplicable_model_aborts_run_witness :
  exists w',
    evaluate Scenarios.load_model Scenarios.model_dir Scenarios.tuple_to_string
      (Scenarios.evaluator ["echo.py"; "narrow.py"; "echo.py"] Scenarios.scenario_A)
      Scenarios.world
    = (Raise (ValueError (NotApplicableDomains "narrow" {[PStr "syllogistic"]})), w')
    /\ log w' = [EvImport 0 "echo.py"; EvStartParticipant 0 (PInt 1);
                 EvPredict 0 (PInt 1) (PInt 1); EvCompare 0 (PInt 1) (PInt 1);
                 EvAdapt 0 (PInt 1) (PInt 1);
                 EvPredict 0 (PInt 1) (PInt 2); EvCompare 0 (PInt 1) (PInt 2);
                 EvAdapt 0 (PInt 1) (PInt 2);
                 EvUnimport 0 "echo.py"; EvImport 1 "narrow.py"].
Proof.
  edestruct (C3_inapplicable_model_aborts_run Scenarios.load_model Scenarios.model_dir
               Scenarios.tuple_to_string
               (Scenarios.evaluator ["echo.py"; "narrow.py"; "echo.py"] Scenarios.scenario_A)
               ["echo.py"] ["echo.py"] "narrow.py" Scenarios.narrow)
    with (w := Scenarios.world)
    as (w' & Hrun & _ & Hlog & _).
  - vm_compute. reflexivity.
  - vm_compute. reflexivity.
  - reflexivity.
  - apply narrow_not_covering.
  - exists w'. split.
    + etransitivity; [exact Hrun|]. vm_compute. reflexivity.
    + etransitivity; [exact Hlog|]. vm_compute. reflexivity.
Defined.

Lemma C10_inapplicable_model_not_unimported_witness :
  exists msg w',
    evaluate Scenarios.load_model Scenarios.model_dir Scenarios.tuple_to_string
      (Scenarios.evaluator ["echo.py"; "narrow.py"; "echo.py"] Scenarios.scenario_A)
      Scenarios.world
    = (Raise (ValueError msg), w')
    /\ "narrow.py" ∈ sys_modules w'
    /\ cwd w' = "/home/bench"
    /\ sys_path w' = ["/usr/lib/python3"].
Proof.
  edestruct (C10_inapplicable_model_not_unimported Scenarios.load_model
               Scenarios.model_dir Scenarios.tuple_to_string
               (Scenarios.evaluator ["echo.py"; "narrow.py"; "echo.py"] Scenarios.scenario_A)
               ["echo.py"] ["echo.py"] "narrow.py" Scenarios.narrow)
    with (w := Scenarios.world)
    as (msg & w' & emitted & Hrun & _ & _ & _ & Hmod & Hcwd & _ & Hpath).
  - vm_compute. reflexivity.
  - vm_compute. reflexivity.
  - reflexivity.
  - apply narrow_not_covering.
  - exists msg, w'. split; [exact Hrun|]. split; [exact Hmod|].
    split; [exact Hcwd|]. etransitivity; [apply Hpath|reflexivity].
    vm_compute. by intros ?%list_elem_of_singleton.
Defined.

(** * Further properties of the evaluator *)

(** ** Decoding and the inverse formatting *)

Lemma str_split_no_sep sep s : occurs sep s = false -> str_split sep s = [s].
Proof.
  induction s as [|c s IH]; [done|]. cbn [occurs str_split].
  intros [Hc Hs]%orb_false_iff. rewrite Hc, (IH Hs). reflexivity.
Qed.

Lemma str_split_app sep piece rest :
  occurs sep piece = false ->
  str_split sep (piece +:+ String sep rest) = piece :: str_split sep rest.
Proof.
  induction piece as [|c piece IH]; simpl.
  - intros _. by rewrite Ascii.eqb_refl.
  - intros [Hc Hs]%orb_false_iff. rewrite Hc, (IH Hs). reflexivity.
Qed.

Lemma str_split_join sep l :
  l <> [] -> Forall (fun piece => occurs sep piece = false) l ->
  str_split sep (str_join sep l) = l.
Proof.
  intros Hne Hl. induction Hl as [|piece l Hpiece Hl IH]; [done|].
  destruct l as [|piece' l].
  - cbn [str_join]. by apply str_split_no_sep.
  - rewrite str_join_cons by done. rewrite str_split_app by done.
    f_equal. by apply IH.
Qed.

Lemma occurs_append c s t : occurs c (s +:+ t) = occurs c s || occurs c t.
Proof.
  induction s as [|c' s IH]; [done|]. simpl.
  by rewrite IH, orb_assoc.
Qed.

Lemma occurs_join c sep l :
  c <> sep -> Forall (fun piece => occurs c piece = false) l ->
  occurs c (str_join sep l) = false.
Proof.
  intros Hc Hl. induction Hl as [|piece l Hpiece Hl IH]; [done|].
  destruct l as [|piece' l]; [done|].
  rewrite str_join_cons by done. rewrite occurs_append, Hpiece.
  cbn [orb occurs]. rewrite IH. apply orb_false_iff. split; [|done].
  apply Ascii.eqb_neq. congruence.
Qed.

(** X1.  Formatting a structured response with [;] between the tokens and
    [/] between the sub-responses and decoding the string gives the response
    back, provided that there is a sub-response, every sub-response has a
    token and no token contains a separator. *)
Theorem decode_join_round_trip (response_type : pyval) (subs : list (list string)) :
  response_type <> PStr "multiple-choice" ->
  subs <> [] ->
  Forall (fun tokens =>
            tokens <> []
            /\ Forall (fun token =>
                         occurs ";" token = false /\ occurs "/" token = false)
                 tokens) subs ->
  decode response_type (PStr (str_join "/" (str_join ";" <$> subs))) = Ok (nested subs).
Proof.
  intros Hrt Hne Hsubs. rewrite decode_plain by done. unfold nested. do 2 f_equal.
  rewrite str_split_join.
  - rewrite <- list_fmap_compose. apply list_fmap_ext.
    intros i tokens Hi. cbn. do 2 f_equal.
    rewrite Forall_forall in Hsubs.
    destruct (Hsubs tokens) as [Htokens Hfree]; [by eapply list_elem_of_lookup_2|].
    apply str_split_join; [done|].
    eapply Forall_impl; [exact Hfree|]. by intros token [? _].
  - by destruct subs.
  - apply Forall_fmap. eapply Forall_impl; [exact Hsubs|].
    intros tokens [_ Hfree]. cbn. apply occurs_join; [done|].
    eapply Forall_impl; [exact Hfree|]. by intros token [_ ?].
Qed.

Lemma decode_join_round_trip_witness :
  decode (PStr "single-choice") (PStr "All;a;c/Some;c;a")
  = Ok (nested [["All"; "a"; "c"]; ["Some"; "c"; "a"]]).
Proof.
  apply (decode_join_round_trip (PStr "single-choice")
           [["All"; "a"; "c"]; ["Some"; "c"; "a"]]); [done|done|].
  repeat (constructor; [split; [done|]; repeat (constructor; [by split|]); constructor|]).
  constructor.
Defined.

Lemma length_str_split sep s : length (str_split sep s) = S (occurrences sep s).
Proof.
  induction s as [|c s IH]; [done|]. cbn [str_split occurrences].
  destruct (Ascii.eqb c sep).
  - cbn. by rewrite IH.
  - pose proof (str_split_nonempty sep s).
    destruct (str_split sep s); [done|]. cbn in *. lia.
Qed.

Lemma occurrences_str_split c sep s :
  c <> sep ->
  sum_list (occurrences c <$> str_split sep s) = occurrences c s.
Proof.
  intros Hc. induction s as [|c' s IH]; [done|]. cbn [str_split occurrences].
  destruct (Ascii.eqb_spec c' sep) as [->|Hne].
  - rewrite fmap_cons. cbn [sum_list sum_list_with occurrences].
    rewrite (proj2 (Ascii.eqb_neq sep c)) by congruence. cbn. exact IH.
  - pose proof (str_split_nonempty sep s).
    destruct (str_split sep s) as [|piece pieces]; [done|].
    rewrite fmap_cons in *. cbn [sum_list sum_list_with occurrences] in *.
    unfold id in *. destruct (Ascii.eqb c' c); lia.
Qed.

Lemma count_tokens sep (pieces : list string) :
  sum_list (length <$> (str_split sep <$> pieces))
  = length pieces + sum_list (occurrences sep <$> pieces).
Proof.
  induction pieces as [|piece pieces IH]; [done|].
  rewrite !fmap_cons.
  change (length (str_split sep piece)
          + sum_list (length <$> (str_split sep <$> pieces))
          = S (length pieces)
            + (occurrences sep piece + sum_list (occurrences sep <$> pieces))).
  rewrite IH, length_str_split. lia.
Qed.

(** X2.  The decoding of a string that is not multiple-choice drops nothing:
    there is one sub-response more than the string has [/], and one token
    more in all than it has [/] and [;], empty sub-responses and empty tokens
    included; the empty string decodes to one sub-response with one empty
    token. *)
Theorem decode_keeps_empty_segments (response_type : pyval) (s : string) :
  response_type <> PStr "multiple-choice" ->
  exists subs : list (list string),
    decode response_type (PStr s) = Ok (nested subs)
    /\ length subs = S (occurrences "/" s)
    /\ sum_list (length <$> subs) = S (occurrences "/" s + occurrences ";" s).
Proof.
  intros Hrt. exists (str_split ";" <$> str_split "/" s).
  split; [|split].
  - rewrite decode_plain by done. unfold nested. do 2 f_equal.
    by rewrite <- list_fmap_compose.
  - by rewrite length_fmap, length_str_split.
  - rewrite count_tokens, length_str_split, occurrences_str_split by done. lia.
Qed.

Lemma decode_keeps_empty_segments_witness :
  decode (PStr "verify") (PStr "") = Ok (nested [[""]])
  /\ exists subs,
       decode (PStr "verify") (PStr "a;;b/") = Ok (nested subs)
       /\ length subs = 2 /\ sum_list (length <$> subs) = 4.
Proof.
  split; [reflexivity|].
  destruct (decode_keeps_empty_segments (PStr "verify") "a;;b/") as (subs & ? & ? & ?);
    [done|].
  by exists subs.
Defined.

(** ** Optionals and demographics *)

(** X3.  The optionals of a row are its fields that are not required
    fields, with the values of the row; a required field is never among
    them. *)
Theorem extract_optionals_lookup (data : Row) (key : string) :
  extract_optionals data !! key
  = if decide (key ∈ required_fields) then None else cells data !! key.
Proof.
  unfold extract_optionals. destruct (decide (key ∈ required_fields)) as [Hreq|Hopt].
  - apply map_lookup_filter_None. right. intros v _ Hv. by apply Hv.
  - destruct (cells data !! key) as [v|] eqn:Hkey.
    + by apply map_lookup_filter_Some.
    + apply map_lookup_filter_None. by left.
Qed.

Lemma demographics_fold_lookup (data_df : DataFrame) (fields : list string)
    (acc : gmap string pyval) (key : string) :
  foldl (fun demographics data =>
           match column data data_df with
           | Ok values =>
             match unique values with
             | [value] => <[data := value]> demographics
             | values => <[data := PList values]> demographics
             end
           | Raise _ => demographics
           end) acc fields !! key
  = if decide (key ∈ fields) then
      match column key data_df with
      | Ok values =>
        Some (match unique values with [value] => value | values => PList values end)
      | Raise _ => acc !! key
      end
    else acc !! key.
Proof.
  revert acc. induction fields as [|field fields IH]; intros acc; [done|].
  cbn [foldl]. rewrite IH. clear IH.
  destruct (decide (key ∈ fields)) as [Hin|Hnin].
  - rewrite decide_True by (by apply list_elem_of_further).
    destruct (column key data_df) as [values|e] eqn:Hkey; [done|].
    destruct (decide (field = key)) as [->|Hne]; [by rewrite Hkey|].
    destruct (column field data_df) as [values|e']; [|done].
    destruct (unique values) as [|v [|v' vs]]; by rewrite lookup_insert_ne.
  - destruct (decide (field = key)) as [->|Hne].
    + rewrite decide_True by apply list_elem_of_here.
      destruct (column key data_df) as [values|e]; [|done].
      destruct (unique values) as [|v [|v' vs]]; by rewrite lookup_insert_eq.
    + rewrite decide_False by (rewrite elem_of_cons; naive_solver).
      destruct (column field data_df) as [values|e']; [|done].
      destruct (unique values) as [|v [|v' vs]]; by rewrite lookup_insert_ne.
Qed.

(** X4.  The demographics of a subject that has at least one row have an
    entry exactly for the fields among age, gender, education, affinity and
    experience that are columns of the subject's rows: the value itself when
    the column holds one distinct value, and otherwise the list of its
    distinct values in order of first occurrence. *)
Theorem extract_demographics_lookup (data_df : DataFrame) (key : string) :
  data_df <> [] ->
  extract_demographics data_df !! key
  = if decide (key ∈ ["age"; "gender"; "education"; "affinity"; "experience"]) then
      match column key data_df with
      | Ok values =>
        Some (match unique values with [value] => value | values => PList values end)
      | Raise _ => None
      end
    else None.
Proof.
  intros _. unfold extract_demographics. rewrite demographics_fold_lookup.
  rewrite lookup_empty. reflexivity.
Qed.

(** Two rows of one subject that agree on the age and differ in a column
    that is not a demographic field; the table has no column [gender]. *)
Lemma extract_demographics_lookup_witness :
  let data_df :=
    [mkRow 0 (<["age" := PInt 30]> (<["mood" := PStr "calm"]> ∅));
     mkRow 1 (<["age" := PInt 30]> (<["mood" := PStr "tense"]> ∅))] in
  extract_demographics data_df !! "age" = Some (PInt 30)
  /\ extract_demographics data_df !! "gender" = None
  /\ extract_demographics data_df !! "mood" = None.
Proof.
  cbv zeta. rewrite !extract_demographics_lookup by done.
  split; [|split]; vm_compute; reflexivity.
Defined.

(** ** The constructor *)

Lemma elem_of_unique_column key df col v :
  column key df = Ok col ->
  v ∈ (list_to_set (unique col) : gset pyval) <-> v ∈ key_of key <$> df.
Proof.
  intros Hcol. rewrite elem_of_list_to_set, elem_of_unique.
  by rewrite (column_key_of _ _ _ Hcol).
Qed.

(** X5.  When no training file is given, or the datasets are declared
    corresponding, the constructor leaves the tables as they were read:
    no subject id is replaced. *)
Theorem init_keeps_ids (modellist : list string)
    (eval_comparator : pyval -> pyval -> result pyval)
    (test_datafile : list (gmap string pyval))
    (train_datafile : option (list (gmap string pyval)))
    (silent corresponding_data : bool) (self : Evaluator) :
  Evaluator_init modellist eval_comparator test_datafile train_datafile
    silent corresponding_data = Ok self ->
  train_datafile = None \/ corresponding_data = true ->
  test_data self = read_csv test_datafile
  /\ train_data self = read_csv <$> train_datafile.
Proof.
  unfold Evaluator_init. intros Hinit Hmode.
  apply result_bind_ok_inv in Hinit as (test_df & Htest%CCobraData_ok_inv & Hinit).
  apply result_bind_ok_inv in Hinit as (test_domains & _ & Hinit).
  apply result_bind_ok_inv in Hinit as (test_rts & _ & Hinit).
  destruct train_datafile as [train_records|].
  - destruct Hmode as [Hnone| ->]; [done|].
    apply result_bind_ok_inv in Hinit as (train_df & Htrain%CCobraData_ok_inv & Hinit).
    apply result_bind_ok_inv in Hinit as (train_domains & _ & Hinit).
    apply result_bind_ok_inv in Hinit as (train_rts & _ & Hinit).
    cbn [negb] in Hinit. injection Hinit as <-. by subst.
  - injection Hinit as <-. by subst.
Qed.

Lemma init_keeps_ids_witness :
  exists self,
    Evaluator_init ["echo.py"] Scenarios.exact Scenarios.test_file
      (Some Scenarios.train_file) true true = Ok self
    /\ test_data self = read_csv Scenarios.test_file
    /\ train_data self = Some (read_csv Scenarios.train_file).
Proof.
  destruct (Evaluator_init ["echo.py"] Scenarios.exact Scenarios.test_file
              (Some Scenarios.train_file) true true) as [self|e] eqn:Hinit;
    [|vm_compute in Hinit; discriminate].
  exists self. split; [reflexivity|].
  apply (init_keeps_ids _ _ _ _ _ _ _ Hinit). by right.
Defined.

Lemma init_registry_column (modellist : list string)
    (eval_comparator : pyval -> pyval -> result pyval)
    (test_datafile : list (gmap string pyval))
    (train_datafile : option (list (gmap string pyval)))
    (silent corresponding_data : bool) (self : Evaluator) :
  Evaluator_init modellist eval_comparator test_datafile train_datafile
    silent corresponding_data = Ok self ->
  forall (key : string) (registry : gset pyval),
    (key = "domain" /\ registry = domains self)
    \/ (key = "response_type" /\ registry = response_types self) ->
    forall v,
      v ∈ registry
      <-> v ∈ key_of key <$> read_csv test_datafile
          \/ exists train_records,
               train_datafile = Some train_records
               /\ v ∈ key_of key <$> read_csv train_records.
Proof.
  unfold Evaluator_init. intros Hinit.
  apply result_bind_ok_inv in Hinit as (test_df & Htest%CCobraData_ok_inv & Hinit).
  apply result_bind_ok_inv in Hinit as (test_domains & Htd & Hinit).
  apply result_bind_ok_inv in Hinit as (test_rts & Htr & Hinit).
  subst test_df.
  destruct train_datafile as [train_records|].
  - apply result_bind_ok_inv in Hinit as (train_df & Htrain%CCobraData_ok_inv & Hinit).
    apply result_bind_ok_inv in Hinit as (train_domains & Hnd & Hinit).
    apply result_bind_ok_inv in Hinit as (train_rts & Hnr & Hinit).
    subst train_df.
    assert (domains self
            = ∅ ∪ list_to_set (unique test_domains) ∪ list_to_set (unique train_domains)
            /\ response_types self
               = ∅ ∪ list_to_set (unique test_rts) ∪ list_to_set (unique train_rts))
      as [Hd Hr].
    { destruct corresponding_data; cbn [negb] in Hinit.
      - by injection Hinit as <-.
      - apply result_bind_ok_inv in Hinit as (train_id & _ & Hinit).
        apply result_bind_ok_inv in Hinit as (test_id & _ & Hinit).
        by injection Hinit as <-. }
    intros key registry [[-> ->]|[-> ->]] v.
    + rewrite Hd, !elem_of_union, (elem_of_unique_column _ _ _ _ Htd),
        (elem_of_unique_column _ _ _ _ Hnd).
      pose proof (not_elem_of_empty (C := gset pyval) v) as Hempty.
      split; [intros [[?|?]|?]; [done|eauto..]|].
      intros [?|(? & [= <-] & ?)]; eauto.
    + rewrite Hr, !elem_of_union, (elem_of_unique_column _ _ _ _ Htr),
        (elem_of_unique_column _ _ _ _ Hnr).
      pose proof (not_elem_of_empty (C := gset pyval) v) as Hempty.
      split; [intros [[?|?]|?]; [done|eauto..]|].
      intros [?|(? & [= <-] & ?)]; eauto.
  - injection Hinit as <-. cbn [domains response_types].
    intros key registry [[-> ->]|[-> ->]] v.
    + rewrite !elem_of_union, (elem_of_unique_column _ _ _ _ Htd).
      pose proof (not_elem_of_empty (C := gset pyval) v) as Hempty.
      split; [intros [?|?]; [done|eauto]|].
      intros [?|(? & [=] & ?)]; eauto.
    + rewrite !elem_of_union, (elem_of_unique_column _ _ _ _ Htr).
      pose proof (not_elem_of_empty (C := gset pyval) v) as Hempty.
      split; [intros [?|?]; [done|eauto]|].
      intros [?|(? & [=] & ?)]; eauto.
Qed.

(** X6.  The registry of a constructed evaluator holds exactly the values
    of the [domain] column of the test table and, when a training file is
    given, of the training table, and likewise the response types; the
    remapping of the ids does not change it. *)
Theorem init_registry (modellist : list string)
    (eval_comparator : pyval -> pyval -> result pyval)
    (test_datafile : list (gmap string pyval))
    (train_datafile : option (list (gmap string pyval)))
    (silent corresponding_data : bool) (self : Evaluator) :
  Evaluator_init modellist eval_comparator test_datafile train_datafile
    silent corresponding_data = Ok self ->
  (forall v,
     v ∈ domains self
     <-> v ∈ key_of "domain" <$> read_csv test_datafile
         \/ exists train_records,
              train_datafile = Some train_records
              /\ v ∈ key_of "domain" <$> read_csv train_records)
  /\ (forall v,
        v ∈ response_types self
        <-> v ∈ key_of "response_type" <$> read_csv test_datafile
            \/ exists train_records,
                 train_datafile = Some train_records
                 /\ v ∈ key_of "response_type" <$> read_csv train_records).
Proof.
  intros Hinit. split.
  - apply (init_registry_column _ _ _ _ _ _ _ Hinit "domain"). by left.
  - apply (init_registry_column _ _ _ _ _ _ _ Hinit "response_type"). by right.
Qed.

Lemma init_registry_witness :
  PStr "syllogistic" ∈ domains Scenarios.reconciled
  /\ PStr "single-choice" ∈ response_types Scenarios.reconciled
  /\ PStr "propositional" ∉ domains Scenarios.reconciled.
Proof.
  assert (Evaluator_init ["echo.py"] Scenarios.exact Scenarios.test_file
            (Some Scenarios.train_file) true false = Ok Scenarios.reconciled)
    as Hinit by (vm_compute; reflexivity).
  destruct (init_registry _ _ _ _ _ _ _ Hinit) as [Hd Hr].
  split; [|split].
  - apply Hd. left. apply (bool_decide_unpack _). vm_compute. exact I.
  - apply Hr. left. apply (bool_decide_unpack _). vm_compute. exact I.
  - intros [Hin|(train_records & [= <-] & Hin)]%Hd;
      apply (bool_decide_pack _) in Hin; vm_compute in Hin; exact Hin.
Defined.

Lemma replace_same_but_id d df : Forall2 same_but_id df (replace "id" d df).
Proof.
  unfold replace. apply Forall2_fmap_r, Forall_Forall2_diag, Forall_forall.
  intros row _. split; [reflexivity|]. intros key Hkey. cbn [cells].
  by rewrite lookup_alter_ne.
Qed.

(** X7.  The remapping of the ids changes nothing else: the reconciled
    tables have the rows of the files, in the same order and with the same
    index labels, and every cell outside the [id] column is as it was read. *)
Theorem reconciler_touches_ids_only (modellist : list string)
    (eval_comparator : pyval -> pyval -> result pyval)
    (test_datafile train_datafile : list (gmap string pyval))
    (silent : bool) (self : Evaluator) :
  Evaluator_init modellist eval_comparator test_datafile (Some train_datafile)
    silent false = Ok self ->
  Forall2 same_but_id (read_csv test_datafile) (test_data self)
  /\ exists train',
       train_data self = Some train'
       /\ Forall2 same_but_id (read_csv train_datafile) train'.
Proof.
  unfold Evaluator_init. intros Hinit.
  apply result_bind_ok_inv in Hinit as (test_df & Htest%CCobraData_ok_inv & Hinit).
  apply result_bind_ok_inv in Hinit as (test_domains & _ & Hinit).
  apply result_bind_ok_inv in Hinit as (test_rts & _ & Hinit).
  apply result_bind_ok_inv in Hinit as (train_df & Htrain%CCobraData_ok_inv & Hinit).
  apply result_bind_ok_inv in Hinit as (train_domains & _ & Hinit).
  apply result_bind_ok_inv in Hinit as (train_rts & _ & Hinit).
  cbn [negb] in Hinit.
  apply result_bind_ok_inv in Hinit as (train_id & _ & Hinit).
  apply result_bind_ok_inv in Hinit as (test_id & _ & Hinit).
  injection Hinit as <-. subst. cbn [test_data train_data].
  split; [apply replace_same_but_id|].
  eexists. split; [reflexivity|apply replace_same_but_id].
Qed.

Lemma reconciler_touches_ids_only_witness :
  Forall2 same_but_id (read_csv Scenarios.test_file) (test_data Scenarios.reconciled)
  /\ length (test_data Scenarios.reconciled) = 3.
Proof.
  assert (Evaluator_init ["echo.py"] Scenarios.exact Scenarios.test_file
            (Some Scenarios.train_file) true false = Ok Scenarios.reconciled)
    as Hinit by (vm_compute; reflexivity).
  destruct (reconciler_touches_ids_only _ _ _ _ _ _ Hinit) as [Htest _].
  split; [exact Htest|]. by rewrite <- (Forall2_length _ _ _ Htest).
Defined.

(** ** The applicability check *)

Section ApplicabilityError.

Variable load_model : string -> option CCobraModel.
Variable model_dir : string -> string -> string.
Variable tuple_to_string : pyval -> result pyval.

(** X8.  The domains are checked before the response types, and the error
    names exactly the offending values: for a loaded model that does not
    support every domain of the registry, the iteration raises the error
    for the domains with the registered domains that the model does not
    support, at least one; for a model that supports the domains but not
    every response type, it raises the error for the response types with
    the unsupported ones. *)
Theorem applicability_error_names_missing (self : Evaluator) (idx : nat)
    (model : string) (class : CCobraModel) (w : World) :
  load_model model = Some class ->
  ¬ (covers (supported_domains class) (domains self)
     /\ covers (supported_response_types class) (response_types self)) ->
  exists missing kind,
    (evaluate_model load_model model_dir tuple_to_string self (idx, model) w).1
    = Raise (ValueError (kind (name class) missing))
    /\ (exists v, v ∈ missing)
    /\ ((¬ covers (supported_domains class) (domains self)
         /\ kind = NotApplicableDomains
         /\ forall v, v ∈ missing
                      <-> v ∈ domains self /\ v ∉ supported_domains class)
        \/ (covers (supported_domains class) (domains self)
            /\ kind = NotApplicableResponseTypes
            /\ forall v, v ∈ missing
                         <-> v ∈ response_types self
                             /\ v ∉ supported_response_types class)).
Proof.
  intros Hload Hcover.
  destruct (evaluate_model_inapplicable load_model model_dir tuple_to_string
              self idx model class w Hload Hcover) as (w' & Hrun & _).
  rewrite Hrun. cbn [fst]. unfold applicability_error.
  destruct (bool_decide (0 < size (domains self ∖ _))) eqn:Hd.
  - apply bool_decide_eq_true in Hd.
    exists (domains self ∖ list_to_set (supported_domains class)), NotApplicableDomains.
    split; [reflexivity|]. split; [by apply size_pos_elem_of|].
    left. split; [by apply size_difference_pos|]. split; [reflexivity|].
    intros v. by rewrite elem_of_difference, elem_of_list_to_set.
  - apply bool_decide_eq_false in Hd. rewrite size_difference_pos in Hd.
    assert (covers (supported_domains class) (domains self)) as Hdom.
    { unfold covers.
      by destruct (decide (domains self ⊆ list_to_set (supported_domains class))). }
    exists (response_types self ∖ list_to_set (supported_response_types class)),
      NotApplicableResponseTypes.
    split; [reflexivity|]. split.
    + apply size_pos_elem_of, size_difference_pos. intros Hrt. by apply Hcover.
    + right. split; [exact Hdom|]. split; [reflexivity|].
      intros v. by rewrite elem_of_difference, elem_of_list_to_set.
Qed.

End ApplicabilityError.

Lemma applicability_error_names_missing_witness :
  exists missing,
    (evaluate_model Scenarios.load_model Scenarios.model_dir Scenarios.tuple_to_string
       (Scenarios.evaluator ["narrow.py"] Scenarios.scenario_A) (0, "narrow.py")
       Scenarios.world).1
    = Raise (ValueError (NotApplicableDomains "narrow" missing))
    /\ forall v, v ∈ missing
                 <-> v ∈ domains (Scenarios.evaluator ["narrow.py"] Scenarios.scenario_A)
                     /\ v ∉ supported_domains Scenarios.narrow.
Proof.
  destruct (applicability_error_names_missing Scenarios.load_model Scenarios.model_dir
              Scenarios.tuple_to_string
              (Scenarios.evaluator ["narrow.py"] Scenarios.scenario_A) 0 "narrow.py"
              Scenarios.narrow Scenarios.world eq_refl
              (narrow_not_covering ["narrow.py"]))
    as (missing & kind & Hrun & _ & [(_ & -> & Hmissing)|(Hcov & _)]).
  - exists missing. split; [exact Hrun|exact Hmissing].
  - exfalso. revert Hcov. unfold covers. intros Hcov.
    assert (PStr "syllogistic"
              ∈ domains (Scenarios.evaluator ["narrow.py"] Scenarios.scenario_A))
      as Hin by (apply (bool_decide_unpack _); vm_compute; exact I).
    apply Hcov in Hin. apply (bool_decide_pack _) in Hin.
    vm_compute in Hin. exact Hin.
Defined.

(** ** Training records *)

(** X9.  A training record carries the subject id under [id], the index
    label that [iterrows] yields under [sequence], the item built from the
    id and the row's domain, task, response type and choices under [item],
    and every other column of the row with the row's value, whatever the
    row holds in columns named [id], [sequence] or [item]; only the response
    is replaced by its decoding when it is a string. *)
Theorem train_dict_entries (id_info seq_info : pyval) (row : Row)
    (train_dict : gmap string tval) :
  make_train_dict id_info seq_info row = Ok train_dict ->
  train_dict !! "id" = Some (TVal id_info)
  /\ train_dict !! "sequence" = Some (TVal seq_info)
  /\ (exists domain task response_type choices,
        cells row !! "domain" = Some domain
        /\ cells row !! "task" = Some task
        /\ cells row !! "response_type" = Some response_type
        /\ cells row !! "choices" = Some choices
        /\ train_dict !! "item"
           = Some (TItem (mkItem id_info domain task response_type choices)))
  /\ (forall key,
        key ∉ ["id"; "sequence"; "item"; "response"] ->
        train_dict !! key = TVal <$> cells row !! key)
  /\ (exists response response_type decoded,
        cells row !! "response" = Some response
        /\ cells row !! "response_type" = Some response_type
        /\ decode response_type response = Ok decoded
        /\ train_dict !! "response" = Some (TVal decoded)).
Proof.
  unfold make_train_dict. intros Hrun.
  apply result_bind_ok_inv in Hrun as (domain & Hdomain & Hrun).
  apply result_bind_ok_inv in Hrun as (task & Htask & Hrun).
  apply result_bind_ok_inv in Hrun as (response_type & Hrt & Hrun).
  apply result_bind_ok_inv in Hrun as (choices & Hchoices & Hrun).
  apply result_bind_ok_inv in Hrun as (response & Hresponse & Hrun).
  set (d0 := <["item" := TItem (mkItem id_info domain task response_type choices)]>
               (<["sequence" := TVal seq_info]> (<["id" := TVal id_info]> ∅))) in *.
  set (d := foldl _ d0 _) in *.
  assert (forall key, d !! key = match d0 !! key with
                                 | Some v => Some v
                                 | None => TVal <$> cells row !! key
                                 end) as Hd by apply merge_row_cells.
  assert (forall key v, row_get key row = Ok v -> cells row !! key = Some v) as Hget.
  { intros key v. unfold row_get. destruct (cells row !! key); congruence. }
  apply Hget in Hdomain, Htask, Hrt, Hchoices.
  assert (d !! "response" = TVal <$> cells row !! "response") as Hdr by (by rewrite Hd).
  assert (d !! "response_type" = Some (TVal response_type)) as Hdrt
    by (by rewrite Hd, Hrt).
  unfold dict_get in Hresponse. rewrite Hdr in Hresponse.
  destruct (cells row !! "response") as [resp|] eqn:Hresp; [|discriminate].
  injection Hresponse as <-.
  assert (exists final,
            train_dict = final
            /\ (final = d /\ isinstance_str resp = false
                \/ exists decoded, decode response_type resp = Ok decoded
                                   /\ final = <["response" := TVal decoded]> d))
    as (final & -> & Hfinal).
  { exists train_dict. split; [reflexivity|].
    destruct resp as [z|s|l]; try (injection Hrun as <-; by left).
    unfold dict_get in Hrun. rewrite Hdrt in Hrun. cbn [mbind result_bind] in Hrun.
    apply result_bind_ok_inv in Hrun as (decoded & Hdec & Hrun).
    injection Hrun as <-. right. eauto. }
  assert (forall key, key <> "response" -> final !! key = d !! key) as Hkeep.
  { intros key Hkey. destruct Hfinal as [[-> _]|(decoded & _ & ->)]; [done|].
    by rewrite lookup_insert_ne. }
  split; [by rewrite Hkeep, Hd|]. split; [by rewrite Hkeep, Hd|].
  split; [exists domain, task, response_type, choices; by rewrite Hkeep, Hd|].
  split.
  - intros key Hkey. rewrite !not_elem_of_cons in Hkey.
    destruct Hkey as (? & ? & ? & ? & _).
    rewrite Hkeep, Hd by done. unfold d0.
    by rewrite !lookup_insert_ne, lookup_empty.
  - destruct Hfinal as [[-> Hstr]|(decoded & Hdec & ->)].
    + exists resp, response_type, resp. split; [reflexivity|]. split; [exact Hrt|].
      split; [by apply decode_not_string|exact Hdr].
    + exists resp, response_type, decoded. split; [reflexivity|]. split; [exact Hrt|].
      split; [exact Hdec|apply lookup_insert_eq].
Qed.

Lemma train_dict_entries_witness :
  make_train_dict (PInt 5) (PInt 2) Scenarios.train_row = Ok Scenarios.train_record
  /\ Scenarios.train_record !! "sequence" = Some (TVal (PInt 2))
  /\ Scenarios.train_record !! "task" = Some (TVal (PStr "All;a;b/Some;b;c")).
Proof.
  assert (make_train_dict (PInt 5) (PInt 2) Scenarios.train_row
          = Ok Scenarios.train_record) as Hrun by (vm_compute; reflexivity).
  destruct (train_dict_entries _ _ _ _ Hrun) as (_ & Hseq & _ & Hother & _).
  split; [exact Hrun|]. split; [exact Hseq|].
  etransitivity; [apply Hother|vm_compute; reflexivity].
  apply (bool_decide_unpack _). vm_compute. exact I.
Defined.

(** ** The loading context at its edges *)

Lemma list_remove_None x l : x ∉ l -> list_remove x l = None.
Proof.
  induction l as [|y l IH]; [done|]. intros [Hne Hl]%not_elem_of_cons.
  cbn [list_remove]. rewrite decide_False by done. by rewrite IH.
Qed.

Lemma list_remove_app_l x l l' k :
  list_remove x l = Some l' -> list_remove x (l ++ k) = Some (l' ++ k).
Proof.
  revert l'. induction l as [|y l IH]; intros l'; [done|]. cbn [list_remove app].
  destruct (decide (y = x)); [by intros [= ->]|].
  destruct (list_remove x l) as [l0|]; [|done].
  intros [= <-]. by rewrite (IH l0 eq_refl).
Qed.

Lemma list_remove_elem_of x l : x ∈ l -> is_Some (list_remove x l).
Proof.
  induction l as [|y l IH]; [by intros ?%elem_of_nil|].
  intros Hin. cbn [list_remove]. destruct (decide (y = x)); [done|].
  apply elem_of_cons in Hin as [->|Hin]; [done|].
  destruct (IH Hin) as [l' ->]. done.
Qed.

(** X10.  When the block of the [with] statement takes the model directory
    off the search path itself, leaving the context raises the [ValueError]
    of [list.remove] in place of whatever the block returned or raised; the
    working directory is restored all the same, and the rest of the state is
    as the block left it. *)
Theorem dir_context_remove_fails {A} (path : string) (body : M A) (w : World)
    (r : result A) (w_body : World) :
  body (mkWorld path (sys_path w ++ [path]) (sys_modules w) (log w)) = (r, w_body) ->
  path ∉ sys_path w_body ->
  dir_context path body w
  = (Raise (ValueError (NotInList path)),
     mkWorld (cwd w) (sys_path w_body) (sys_modules w_body) (log w_body)).
Proof.
  intros Hbody Hpath. rewrite dir_context_unfold. cbv zeta.
  rewrite Hbody. cbn [fst snd]. by rewrite list_remove_None.
Qed.

Lemma dir_context_remove_fails_witness :
  dir_context "/models"
    (fun w => (Ok tt, mkWorld "/tmp" [] (sys_modules w) (log w))) Scenarios.world
  = (Raise (ValueError (NotInList "/models")), mkWorld "/home/bench" [] ∅ []).
Proof.
  apply (dir_context_remove_fails "/models"
           (fun w => (Ok tt, mkWorld "/tmp" [] (sys_modules w) (log w)))
           Scenarios.world (Ok tt) (mkWorld "/tmp" [] ∅ [])); [reflexivity|].
  apply not_elem_of_nil.
Defined.

(** X11.  When the model directory is on the search path already and the
    block leaves the search path alone, leaving the context removes the
    earlier entry, not the appended one: the directory ends up last on the
    search path. *)
Theorem dir_context_moves_duplicate {A} (path : string) (body : M A) (w : World)
    (r : result A) (w_body : World) :
  body (mkWorld path (sys_path w ++ [path]) (sys_modules w) (log w)) = (r, w_body) ->
  sys_path w_body = sys_path w ++ [path] ->
  path ∈ sys_path w ->
  exists others,
    list_remove path (sys_path w) = Some others
    /\ dir_context path body w
       = (r, mkWorld (cwd w) (others ++ [path]) (sys_modules w_body) (log w_body)).
Proof.
  intros Hbody Hpath Hin. destruct (list_remove_elem_of _ _ Hin) as [others Hothers].
  exists others. split; [exact Hothers|].
  rewrite dir_context_unfold. cbv zeta. rewrite Hbody. cbn [fst snd].
  by rewrite Hpath, (list_remove_app_l _ _ _ _ Hothers).
Qed.

Lemma dir_context_moves_duplicate_witness :
  dir_context "/models" (mret tt) (mkWorld "/home/bench" ["/models"; "/usr/lib"] ∅ [])
  = (Ok tt, mkWorld "/home/bench" ["/usr/lib"; "/models"] ∅ []).
Proof.
  destruct (dir_context_moves_duplicate "/models" (mret tt)
              (mkWorld "/home/bench" ["/models"; "/usr/lib"] ∅ []) (Ok tt)
              (mkWorld "/models" ["/models"; "/usr/lib"; "/models"] ∅ []))
    as (others & Hothers & Hrun); [reflexivity|reflexivity|apply list_elem_of_here|].
  injection Hothers as <-. exact Hrun.
Defined.

(** ** Teardown *)



Lemma hooks_only_emit ev w :
  is_hook ev = true ->
  hooks_only w (mkWorld (cwd w) (sys_path w) (sys_modules w) (log w ++ [ev])).
Proof.
  intros Hev. repeat (split; [done|]). exists [ev]. split; [done|]. by constructor.
Qed.



Section Teardown.

Variable load_model : string -> option CCobraModel.
Variable model_dir : string -> string -> string.
Variable tuple_to_string : pyval -> result pyval.







End Teardown.


(** ** The size and the rows of the result table *)

Lemma length_bind_singleton {A B} (g : A -> B) (l : list A) :
  length (l ≫= fun x => [g x]) = length l.
Proof. induction l as [|x l IH]; [done|]. cbn. by rewrite IH. Qed.

Lemma length_bind_sum {A B} (f : A -> list B) (l : list A) :
  length (l ≫= f) = sum_list ((fun x => length (f x)) <$> l).
Proof.
  induction l as [|x l IH]; [done|].
  cbn [mbind list_bind]. rewrite length_app, IH. reflexivity.
Qed.

Lemma sum_indicator (keys : list pyval) (k0 : pyval) :
  NoDup keys -> k0 ∈ keys ->
  sum_list ((fun k => if decide (Some k0 = Some k) then 1 else 0) <$> keys) = 1.
Proof.
  intros Hnd. induction Hnd as [|k keys Hk Hnd IH]; [by intros ?%elem_of_nil|].
  intros Hin. rewrite fmap_cons.
  change (sum_list (?x :: ?l)) with (x + sum_list l).
  destruct (decide (Some k0 = Some k)) as [[= ->]|Hne].
  - assert (sum_list ((fun k' => if decide (Some k = Some k') then 1 else 0) <$> keys) = 0)
      as ->; [|done].
    clear IH Hin Hnd. induction keys as [|k' keys IH]; [done|].
    apply not_elem_of_cons in Hk as [Hne Hk]. rewrite fmap_cons.
    change (sum_list (?x :: ?l)) with (x + sum_list l).
    rewrite decide_False by congruence. by rewrite IH.
  - apply elem_of_cons in Hin as [->|Hin]; [done|]. by rewrite IH.
Qed.

Lemma groups_partition (keys : list pyval) (df : DataFrame) :
  NoDup keys ->
  Forall (fun row => exists k, k ∈ keys /\ cells row !! "id" = Some k) df ->
  sum_list ((fun k => length (filter (fun row => cells row !! "id" = Some k) df)) <$> keys)
  = length df.
Proof.
  intros Hnd Hdf. induction Hdf as [|row df (k0 & Hk0 & Hrow) _ IH].
  - induction keys as [|k keys IHk]; [done|].
    apply NoDup_cons in Hnd as [_ Hnd]. rewrite fmap_cons.
    change (sum_list (?x :: ?l)) with (x + sum_list l). by rewrite IHk.
  - transitivity
      (sum_list ((fun k => if decide (Some k0 = Some k) then 1 else 0) <$> keys)
       + sum_list ((fun k => length (filter (fun row => cells row !! "id" = Some k)
                                       df)) <$> keys)).
    + clear IH Hnd Hk0. induction keys as [|k keys IHk]; [done|].
      rewrite !fmap_cons.
      change (sum_list (?x :: ?l)) with (x + sum_list l).
      rewrite IHk, (filter_cons (fun row0 : Row => cells row0 !! "id" = Some k)), Hrow.
      destruct (decide (Some k0 = Some k)); cbn [length]; lia.
    + rewrite (sum_indicator keys k0 Hnd Hk0). cbn [length Nat.add]. f_equal. exact IH.
Qed.

Lemma length_expected_order names df col :
  column "id" df = Ok col ->
  length (expected_order names df) = length names * length df.
Proof.
  intros Hcol. unfold expected_order.
  assert (forall model_name : string,
            length (subjects_ascending df ≫= fun subj_id =>
                      subject_sequences df subj_id ≫= fun sequence =>
                        [(model_name, subj_id, sequence)]) = length df) as Hone.
  { intros model_name. rewrite length_bind_sum.
    destruct (subjects_ascending_spec df) as (_ & Hnd & Hmem).
    rewrite <- (groups_partition (subjects_ascending df) df Hnd).
    - f_equal. apply list_fmap_ext. intros i k _.
      rewrite length_bind_singleton. unfold subject_sequences.
      by rewrite length_fmap, sort_by_perm.
    - apply column_ok_inv in Hcol. apply Forall_forall. intros row Hrow.
      apply list_elem_of_lookup in Hrow as [i Hi].
      destruct (Forall2_lookup_l _ _ _ _ _ Hcol Hi) as (v & _ & Hv).
      exists v. split; [|exact Hv]. apply Hmem.
      apply list_elem_of_fmap. exists row.
      split; [unfold key_of; by rewrite Hv|by eapply list_elem_of_lookup_2]. }
  induction names as [|model_name names IH]; [done|].
  cbn [mbind list_bind length]. rewrite length_app, IH, Hone. lia.
Qed.

Section TableSize.

Variable load_model : string -> option CCobraModel.
Variable model_dir : string -> string -> string.
Variable tuple_to_string : pyval -> result pyval.

Lemma evaluate_in_context_ok_id self idx model w results w' :
  evaluate_in_context load_model tuple_to_string self idx model w = (Ok results, w') ->
  exists col, column "id" (test_data self) = Ok col.
Proof.
  unfold evaluate_in_context. intros Hrun.
  apply bind_ok_inv in Hrun as (importer & w0 & _ & Hrun).
  destruct (bool_decide (0 < size (domains self ∖ _))); [discriminate|].
  destruct (bool_decide (0 < size (response_types self ∖ _))); [discriminate|].
  apply bind_ok_inv in Hrun as (pre_model & w1 & _ & Hrun).
  rewrite bind_lift in Hrun. unfold groupby in Hrun.
  destruct (column "id" (test_data self)) as [col|e]; [eauto|discriminate].
Qed.

Lemma evaluate_model_ok_length self entry w results w' :
  evaluate_model load_model model_dir tuple_to_string self entry w = (Ok results, w') ->
  length results = length (test_data self).
Proof.
  intros Hrun.
  destruct (evaluate_model_ok load_model model_dir tuple_to_string
              self entry w results w' Hrun) as (class & _ & _ & _ & Horder).
  assert (exists col, column "id" (test_data self) = Ok col) as [col Hcol].
  { destruct entry as [idx model]. rewrite evaluate_model_unfold in Hrun.
    apply bind_ok_inv in Hrun as ([] & w0 & _ & Hrun).
    apply bind_ok_inv in Hrun as (old & w1 & _ & Hrun).
    rewrite dir_context_unfold in Hrun. cbv zeta in Hrun.
    destruct (list_remove _ _); [|discriminate].
    destruct (evaluate_in_context _ _ _ _ _ _) as [r wb] eqn:Hbody.
    cbn [fst snd] in Hrun. injection Hrun as -> _.
    by eapply evaluate_in_context_ok_id. }
  rewrite <- (length_fmap order_key), Horder, (length_expected_order _ _ col Hcol).
  cbn. lia.
Qed.

(** X13.  When every row of the test table has an id and [evaluate]
    returns the result table, the table has one row for every model of the
    list and every row of the test table: no trial is dropped or repeated
    by the grouping into subjects. *)
Theorem result_table_size (self : Evaluator) (w w' : World)
    (table : list result_row) :
  Forall (fun row => is_Some (cells row !! "id")) (test_data self) ->
  evaluate load_model model_dir tuple_to_string self w = (Ok table, w') ->
  length table = length (modellist self) * length (test_data self).
Proof.
  intros _. rewrite evaluate_unfold. intros Hrun.
  apply (for_each_ok_inv _ (fun _ r => length r = length (test_data self))) in Hrun.
  2: { intros entry w0 r w0'. apply evaluate_model_ok_length. }
  destruct Hrun as (chunks & -> & Hchunks).
  rewrite <- (length_imap pair (modellist self)). fold (enumerate (modellist self)).
  induction Hchunks as [|entry r entries chunks Hr _ IH]; [done|].
  cbn [concat length]. rewrite length_app, Hr, IH. lia.
Qed.


End TableSize.

Lemma result_table_size_witness :
  exists table,
    (Scenarios.run ["echo.py"; "echo.py"] Scenarios.test_file).1 = Ok table
    /\ length table = 6.
Proof.
  destruct (Scenarios.run ["echo.py"; "echo.py"] Scenarios.test_file)
    as [[table|e] w'] eqn:Hrun; [|vm_compute in Hrun; discriminate].
  exists table. split; [reflexivity|].
  unfold Scenarios.run in Hrun.
  assert (Forall (fun row => is_Some (cells row !! "id"))
            (test_data (Scenarios.evaluator ["echo.py"; "echo.py"] Scenarios.test_file)))
    as Hids.
  { change (test_data (Scenarios.evaluator ["echo.py"; "echo.py"] Scenarios.test_file))
      with (read_csv Scenarios.test_file).
    repeat constructor; by eexists. }
  rewrite (result_table_size _ _ _ _ _ _ _ Hids Hrun).
  vm_compute. reflexivity.
Defined.


(** ** Runs that return *)







Section Returns.

Variable load_model : string -> option CCobraModel.
Variable model_dir : string -> string -> string.
Variable tuple_to_string : pyval -> result pyval.





End Returns.




(** ** The lifecycle of a model *)

Lemma for_each_ok_log {A B} (body : A -> M (list B)) (events : A -> list event) l w rows w' :
  (forall x w r w', body x w = (Ok r, w') -> log w' = log w ++ events x) ->
  for_each body l w = (Ok rows, w') ->
  log w' = log w ++ (l ≫= events).
Proof.
  intros Hbody. revert w rows. induction l as [|x l IH]; intros w rows Hrun.
  - cbn in Hrun. unfold mret, M_ret in Hrun. injection Hrun as _ <-.
    cbn. by rewrite app_nil_r.
  - cbn [for_each] in Hrun.
    apply bind_ok_inv in Hrun as (ys & w1 & Hx & Hrun).
    apply bind_ok_inv in Hrun as (zs & w2 & Hl & Hrun).
    unfold mret, M_ret in Hrun. injection Hrun as _ <-.
    cbn [mbind list_bind]. by rewrite (IH _ _ Hl), (Hbody _ _ _ _ Hx), app_assoc.
Qed.

Lemma for_each_ok_both {A B} (body : A -> M (list B)) (P : A -> list B -> Prop)
    (events : A -> list event) l w rows w' :
  (forall x w r w', x ∈ l -> body x w = (Ok r, w') ->
                    P x r /\ log w' = log w ++ events x) ->
  for_each body l w = (Ok rows, w') ->
  (exists chunks, rows = concat chunks /\ Forall2 P l chunks)
  /\ log w' = log w ++ (l ≫= events).
Proof.
  revert w rows. induction l as [|x l IH]; intros w rows Hbody Hrun.
  - cbn in Hrun. unfold mret, M_ret in Hrun. injection Hrun as <- <-.
    split; [exists []; by split; [|constructor]|]. cbn. by rewrite app_nil_r.
  - cbn [for_each] in Hrun.
    apply bind_ok_inv in Hrun as (ys & w1 & Hx & Hrun).
    apply bind_ok_inv in Hrun as (zs & w2 & Hl & Hrun).
    unfold mret, M_ret in Hrun. injection Hrun as <- <-.
    destruct (Hbody _ _ _ _ (list_elem_of_here _ _) Hx) as [HP Hlog1].
    destruct (IH w1 zs) as [(chunks & -> & Hchunks) Hlog2]; [|exact Hl|].
    { intros y wa r wa' Hy. apply Hbody. by apply list_elem_of_further. }
    split.
    + exists (ys :: chunks). split; [done|by constructor].
    + cbn [mbind list_bind]. by rewrite Hlog2, Hlog1, app_assoc.
Qed.

Section Lifecycle.

Variable load_model : string -> option CCobraModel.
Variable model_dir : string -> string -> string.
Variable tuple_to_string : pyval -> result pyval.

Lemma evaluate_subject_run self idx class pre_trained df subj_id w results w' :
  evaluate_subject tuple_to_string self idx class pre_trained
    (subj_id, filter (fun row => cells row !! "id" = Some subj_id) df) w
  = (Ok results, w') ->
  subject_run tuple_to_string self class pre_trained df subj_id results
  /\ log w' = log w ++ EvStartParticipant idx subj_id
                 :: (subject_sequences df subj_id ≫= trial_events idx subj_id).
Proof.
  intros Hrun. apply evaluate_subject_ok_inv in Hrun
    as ([col Hcol] & (started & finished & Hstart & Hchain) & ->).
  split; [|reflexivity]. unfold subject_run. cbv zeta.
  destruct (sort_values_ok "sequence" _ col Hcol) as (sorted & Hsort & Hperm & Hsorted).
  unfold sort_values in Hsort. rewrite Hcol in Hsort.
  cbn [mbind result_bind] in Hsort. injection Hsort as <-.
  by exists (sort_by (row_leb "sequence")
               (filter (fun row => cells row !! "id" = Some subj_id) df)),
    started, finished.
Qed.

(** X16.  A model that is evaluated to the end has gone through its
    lifecycle in this order, with nothing in between and with every call
    returning: the import; one call of [pre_train] on the new instance,
    made only when there is training data; then for each subject in
    ascending order of the id the call of [start_participant] on a copy of
    the pre-trained state, whatever the subjects before have done to their
    copies, followed by [predict], [compare], [adapt] for each of its
    trials in ascending order of the sequence, each trial from the state
    in which the one before has left the copy; the unimport.  The result
    rows are those of the trials in this order. *)
Theorem evaluate_model_lifecycle (self : Evaluator) (idx : nat) (model : string)
    (w w' : World) (results : list result_row) :
  evaluate_model load_model model_dir tuple_to_string self (idx, model) w
  = (Ok results, w') ->
  exists (class : CCobraModel) (pre_trained : mstate class)
         (chunks : list (list result_row)),
    load_model model = Some class
    /\ pre_trained_state self class pre_trained
    /\ results = concat chunks
    /\ Forall2 (subject_run tuple_to_string self class pre_trained (test_data self))
         (subjects_ascending (test_data self)) chunks
    /\ log w' = log w
                ++ (if silent self then []
                    else [EvPrint model (idx + 1) (length (modellist self))])
                ++ EvImport idx model :: lifecycle self idx ++ [EvUnimport idx model].
Proof.
  rewrite evaluate_model_unfold. intros Hrun.
  set (printed := if silent self then []
                  else [EvPrint model (idx + 1) (length (modellist self))]).
  set (w0 := mkWorld (cwd w) (sys_path w) (sys_modules w) (log w ++ printed)).
  assert ((if silent self then mret tt
           else emit (EvPrint model (idx + 1) (length (modellist self)))) w
          = (Ok tt, w0)) as Hprint.
  { unfold w0, printed. destruct (silent self); unfold emit, mret, M_ret;
      [rewrite app_nil_r; by destruct w|done]. }
  rewrite (bind_ok _ _ _ _ _ Hprint) in Hrun.
  rewrite bind_ok with (a := cwd w0) (w' := w0) in Hrun by reflexivity.
  rewrite dir_context_unfold in Hrun. cbv zeta in Hrun.
  destruct (evaluate_in_context _ _ _ _ _ _) as [r wb] eqn:Hbody.
  cbn [fst snd] in Hrun.
  destruct (list_remove _ (sys_path wb)) as [l|]; [|discriminate].
  injection Hrun as -> <-. cbn [log].
  unfold evaluate_in_context in Hbody.
  apply bind_ok_inv in Hbody as (importer & w1 & Himport & Hbody).
  rewrite ModelImporter_run in Himport.
  destruct (load_model model) as [class|]; [|discriminate].
  injection Himport as <- <-. cbn [imp_class] in Hbody.
  destruct (bool_decide (0 < size (domains self ∖ _))); [discriminate|].
  destruct (bool_decide (0 < size (response_types self ∖ _))); [discriminate|].
  apply bind_ok_inv in Hbody as (pre_trained & w2 & Hpre & Hbody).
  apply pre_training_ok_inv in Hpre as [Hpre ->].
  rewrite bind_lift in Hbody. unfold groupby in Hbody.
  destruct (column "id" (test_data self)) as [col|e] eqn:Hcol; [|discriminate].
  cbn [mbind result_bind] in Hbody.
  apply bind_ok_inv in Hbody as (result_data & w3 & Hloop & Hbody).
  rewrite (column_key_of _ _ _ Hcol) in Hloop.
  fold (subjects_ascending (test_data self)) in Hloop.
  apply (for_each_ok_both _
           (fun group : pyval * DataFrame =>
              subject_run tuple_to_string self class pre_trained (test_data self) group.1)
           (fun group : pyval * DataFrame =>
              EvStartParticipant idx group.1
                :: (subject_sequences (test_data self) group.1
                      ≫= trial_events idx group.1))) in Hloop.
  2: { intros group wa ra wa' Hin Hgroup. cbn beta.
       apply list_elem_of_fmap in Hin as (subj_id & -> & _).
       by apply evaluate_subject_run in Hgroup. }
  destruct Hloop as [(chunks & -> & Hchunks) Hlog3].
  unfold unimport in Hbody. cbn [imp_idx imp_model] in Hbody.
  rewrite bind_ok with (a := tt)
    (w' := mkWorld (cwd w3) (sys_path w3) (sys_modules w3 ∖ {[model]})
             (log w3 ++ [EvUnimport idx model])) in Hbody by reflexivity.
  unfold mret, M_ret in Hbody. injection Hbody as <- <-. cbn [log].
  exists class, pre_trained, chunks.
  split; [reflexivity|]. split; [exact Hpre|]. split; [reflexivity|]. split.
  { apply (proj1 (Forall2_fmap_l
                    (fun k : pyval =>
                       (k, filter (fun row => cells row !! "id" = Some k)
                             (test_data self))) _ _ _)) in Hchunks.
    exact Hchunks. }
  rewrite Hlog3. unfold w0, lifecycle. cbn [log].
  rewrite list_fmap_bind. unfold compose. cbn [fst snd].
  rewrite <- !app_assoc. reflexivity.
Qed.

End Lifecycle.

(** The test file of scenario D, in which subject 8 has the first and the
    third row and subject 5 the second: subject 5 is evaluated first, and the
    first prediction for subject 8 is that of a model which has adapted to
    nothing, although the model has adapted to subject 5 before. *)
Lemma evaluate_model_lifecycle_witness :
  exists results w',
    evaluate_model Scenarios.load_model Scenarios.model_dir Scenarios.tuple_to_string
      (Scenarios.evaluator ["echo.py"] Scenarios.test_file) (0, "echo.py")
      Scenarios.world = (Ok results, w')
    /\ (fun r => (r_id r, r_sequence r, r_prediction r)) <$> results
       = [(PInt 5, PInt 1, PList []);
          (PInt 8, PInt 1, PList []);
          (PInt 8, PInt 2, PList [PList [PList [PStr "Some"; PStr "a"; PStr "c"]]])]
    /\ log w' = [EvImport 0 "echo.py";
                 EvStartParticipant 0 (PInt 5); EvPredict 0 (PInt 5) (PInt 1);
                 EvCompare 0 (PInt 5) (PInt 1); EvAdapt 0 (PInt 5) (PInt 1);
                 EvStartParticipant 0 (PInt 8); EvPredict 0 (PInt 8) (PInt 1);
                 EvCompare 0 (PInt 8) (PInt 1); EvAdapt 0 (PInt 8) (PInt 1);
                 EvPredict 0 (PInt 8) (PInt 2);
                 EvCompare 0 (PInt 8) (PInt 2); EvAdapt 0 (PInt 8) (PInt 2);
                 EvUnimport 0 "echo.py"]
    /\ exists (pre_trained : mstate Scenarios.echo) chunks,
         results = concat chunks
         /\ Forall2 (subject_run Scenarios.tuple_to_string
                       (Scenarios.evaluator ["echo.py"] Scenarios.test_file)
                       Scenarios.echo pre_trained
                       (test_data (Scenarios.evaluator ["echo.py"] Scenarios.test_file)))
              (subjects_ascending
                 (test_data (Scenarios.evaluator ["echo.py"] Scenarios.test_file)))
              chunks.
Proof.
  destruct (evaluate_model Scenarios.load_model Scenarios.model_dir
              Scenarios.tuple_to_string
              (Scenarios.evaluator ["echo.py"] Scenarios.test_file) (0, "echo.py")
              Scenarios.world) as [[results|e] w'] eqn:Hrun;
    [|vm_compute in Hrun; discriminate].
  exists results, w'. split; [reflexivity|].
  destruct (evaluate_model_lifecycle _ _ _ _ _ _ _ _ _ Hrun)
    as (class & pre_trained & chunks & Hload & _ & Hresults & Hchunks & _).
  assert (Some class = Some Scenarios.echo) as [= ->] by (rewrite <- Hload; reflexivity).
  vm_compute in Hrun. injection Hrun as <- <-.
  split; [reflexivity|]. split; [reflexivity|].
  by exists pre_trained, chunks.
Defined.

(** ** Reconciled tables *)

Lemma sort_by_sorted_id {A} (leb : A -> A -> bool) (l : list A) :
  Sorted (fun a b => leb a b = true) l -> sort_by leb l = l.
Proof.
  induction 1 as [|x l Hl IH Hhd]; [done|].
  cbn [sort_by foldr]. fold (sort_by leb l). rewrite IH.
  destruct Hhd as [|y l Hxy]; [done|]. cbn [insert_by]. by rewrite Hxy.
Qed.

Lemma sorted_range (m : Z) (n : nat) :
  Sorted (fun a b => pyval_leb a b = true) (PInt <$> seqZ m (Z.of_nat n)).
Proof.
  revert m. induction n as [|n IH]; intros m.
  - rewrite seqZ_nil by lia. constructor.
  - rewrite seqZ_cons by lia. rewrite fmap_cons.
    replace (Z.pred (Z.of_nat (S n))) with (Z.of_nat n) by lia.
    constructor; [apply IH|].
    destruct n as [|n]; [rewrite seqZ_nil by lia; constructor|].
    rewrite seqZ_cons by lia. rewrite fmap_cons. constructor.
    cbn. apply Z.leb_le. lia.
Qed.

(** X17.  After the remapping of the ids the subjects of either table are
    visited in the order in which they first occur in the table: the new
    ids count the subjects in this order, so the ascending order of
    [groupby] is the order of first occurrence. *)
Theorem reconciled_subject_order (modellist : list string)
    (eval_comparator : pyval -> pyval -> result pyval)
    (test_datafile train_datafile : list (gmap string pyval))
    (silent : bool) (self : Evaluator) :
  Evaluator_init modellist eval_comparator test_datafile (Some train_datafile)
    silent false = Ok self ->
  subjects_ascending (test_data self) = unique (key_of "id" <$> test_data self)
  /\ exists train',
       train_data self = Some train'
       /\ subjects_ascending train' = unique (key_of "id" <$> train').
Proof.
  unfold Evaluator_init. intros Hinit.
  apply result_bind_ok_inv in Hinit as (test_df & Htest%CCobraData_ok_inv & Hinit).
  apply result_bind_ok_inv in Hinit as (test_domains & _ & Hinit).
  apply result_bind_ok_inv in Hinit as (test_rts & _ & Hinit).
  apply result_bind_ok_inv in Hinit as (train_df & Htrain%CCobraData_ok_inv & Hinit).
  apply result_bind_ok_inv in Hinit as (train_domains & _ & Hinit).
  apply result_bind_ok_inv in Hinit as (train_rts & _ & Hinit).
  cbn [negb] in Hinit.
  apply result_bind_ok_inv in Hinit as (train_id & Htrain_id & Hinit).
  apply result_bind_ok_inv in Hinit as (test_id & Htest_id & Hinit).
  injection Hinit as <-. subst test_df train_df. cbn [test_data train_data].
  pose proof (remap_column train_id 0) as [_ Htr].
  pose proof (remap_column test_id (Z.of_nat (length (unique train_id)))) as [_ Hte].
  cbv zeta in Htr, Hte.
  assert (forall df d col range,
            column "id" df = Ok col ->
            unique ((fun v => default v (d !! v)) <$> col) = PInt <$> seqZ range.1 (Z.of_nat range.2) ->
            subjects_ascending (replace "id" d df)
            = unique (key_of "id" <$> replace "id" d df)) as Hsorted.
  { intros df d col range Hcol Hunique. unfold subjects_ascending.
    rewrite <- (column_key_of _ _ _ (column_replace "id" d df col Hcol)), Hunique.
    apply sort_by_sorted_id, sorted_range. }
  split.
  - eapply (Hsorted _ _ _ (_, _)); [exact Htest_id|exact Hte].
  - eexists. split; [reflexivity|].
    eapply (Hsorted _ _ _ (_, _)); [exact Htrain_id|exact Htr].
Qed.

Lemma reconciled_subject_order_witness :
  subjects_ascending (test_data Scenarios.reconciled)
  = unique (key_of "id" <$> test_data Scenarios.reconciled)
  /\ unique (key_of "id" <$> read_csv Scenarios.test_file) = [PInt 8; PInt 5]
  /\ subjects_ascending (read_csv Scenarios.test_file) = [PInt 5; PInt 8].
Proof.
  assert (Evaluator_init ["echo.py"] Scenarios.exact Scenarios.test_file
            (Some Scenarios.train_file) true false = Ok Scenarios.reconciled)
    as Hinit by (vm_compute; reflexivity).
  destruct (reconciled_subject_order _ _ _ _ _ _ Hinit) as [Horder _].
  split; [exact Horder|]. split; vm_compute; reflexivity.
Defined.
(** ** Directories that cannot be entered *)

(** X18.  When the operating system refuses the model directory, the
    context is not entered: [dir_context] raises the [OSError] of [chdir]
    whatever the block is, and nothing has changed, neither the working
    directory nor the search path, to which the directory has not been
    appended, nor the log, to which the block has added nothing. *)
Theorem dir_context_entry_refused {A} (os : World -> string -> bool) (path : string)
    (body : M A) (w : World) :
  os w path = false ->
  dir_context_os os path body w = (Raise (OSError path), w).
Proof. intros Hrefused. by rewrite dir_context_os_unfold, Hrefused. Qed.

Lemma dir_context_entry_refused_witness :
  dir_context_os (Scenarios.refusing "/models") "/models" (emit (EvImport 0 "m.py"))
    Scenarios.world
  = (Raise (OSError "/models"), Scenarios.world).
Proof. by apply dir_context_entry_refused. Defined.

(** X19.  When the block has ended and the operating system does not let
    the process back into the directory in which it was before, the
    [finally] clause stops at its first statement: the context raises the
    [OSError] of [chdir] in place of the outcome of the block, be it a value
    or an exception, and [sys.path.remove] is not reached, so that the
    working directory and the search path stay as the block has left
    them. *)
Theorem dir_context_exit_refused {A} (os : World -> string -> bool) (path : string)
    (body : M A) (w : World) (r : result A) (w_body : World) :
  os w path = true ->
  body (mkWorld path (sys_path w ++ [path]) (sys_modules w) (log w)) = (r, w_body) ->
  os w_body (cwd w) = false ->
  dir_context_os os path body w = (Raise (OSError (cwd w)), w_body).
Proof.
  intros Henter Hbody Hrefused. rewrite dir_context_os_unfold, Henter. cbv zeta.
  rewrite Hbody. cbn [fst snd]. by rewrite Hrefused.
Qed.

(** The process cannot return to its directory: the error of the block is
    lost, the process stays in the model directory, and the model directory
    stays on the search path. *)
Lemma dir_context_exit_refused_witness :
  dir_context_os (Scenarios.refusing "/home/bench") "/models"
    (raise (KeyError "response") : M unit) Scenarios.world
  = (Raise (OSError "/home/bench"),
     mkWorld "/models" ["/usr/lib/python3"; "/models"] ∅ []).
Proof.
  by rewrite (dir_context_exit_refused (Scenarios.refusing "/home/bench") "/models"
                (raise (KeyError "response") : M unit) Scenarios.world
                (Raise (KeyError "response"))
                (mkWorld "/models" ["/usr/lib/python3"; "/models"] ∅ [])).
Defined.

(** ** Failures inside the loading context *)


Section Failure.

Variable load_model : string -> option CCobraModel.
Variable model_dir : string -> string -> string.
Variable tuple_to_string : pyval -> result pyval.




End Failure.


